(** * simple-task-tracker: the TaskTimerProvider controller of src/extension.js

    The controller keeps two in-memory lists (tasks and timers), mirrors them
    into the host's key-value store (globalState) and renders them in two
    status-bar items and a panel.  The embedding is a state-passing one:
    every method of the class is a function [State -> State] that takes the
    value read from the wall clock as an argument.

    Conventions of the model.
    - Time stamps are integers (milliseconds), [Date.now()] is the argument
      [now]; one synchronous run of a handler reads one clock value.
    - [setInterval] handles are natural numbers drawn from a counter that is
      never reset, so a handle names one registration for ever; the live
      registrations of the event loop are a finite map from handles to the
      closure that was registered.
    - Everything the user can observe besides the status bar (notifications,
      messages, panel updates) is appended to a log, oldest first.
    - [globalState.update] stores the value it is given at that moment: the
      store holds what a restarted process would read back. *)

From Stdlib Require Import ZArith String Ascii DecimalString List.
From stdpp Require Import base list strings gmap sorting.

(** ** JavaScript primitives used by the controller *)

(** [Number.prototype.toString] on an integer: decimal digits, a leading
    minus sign for negative numbers. *)
Definition Number_toString (z : Z) : string :=
  NilZero.string_of_int (Z.to_int z).

Fixpoint repeat_char (n : nat) (c : ascii) : string :=
  match n with
  | O => EmptyString
  | S n' => String c (repeat_char n' c)
  end.

(** [s.padStart(targetLength, c)] for a one-character pad string. *)
Definition padStart (targetLength : nat) (c : ascii) (s : string) : string :=
  repeat_char (targetLength - String.length s) c +:+ s.

(** [Array.prototype.sort(cmp)]: the sort is stable and puts [a] before [b]
    when [cmp a b < 0].  For a consistent comparator the result is the one
    stable arrangement, which insertion from the right computes. *)
Section ArraySort.
Context {A : Type} (cmp : A -> A -> Z).

Fixpoint sort_insert (x : A) (l : list A) : list A :=
  match l with
  | [] => [x]
  | y :: l' => if (cmp x y <=? 0)%Z then x :: y :: l' else y :: sort_insert x l'
  end.

Definition Array_sort (l : list A) : list A := foldr sort_insert [] l.
End ArraySort.

(** ** Data model *)

Record Task := mkTask { description : string; completed : bool }.

(** A persisted timer: the [{label, endTime}] pair written to the store. *)
Record StoredTimer := mkStoredTimer { stored_label : string; stored_endTime : Z }.

(** An entry of [this.timers]. *)
Record Timer := mkTimer { label : string; timerInterval : nat; endTime : Z }.

(** An entry of the panel payload. *)
Record PanelTimer := mkPanelTimer { panel_label : string; remaining : string }.

(** The two closures the program passes to [setInterval], with the variables
    they capture: the one of [startTimer] captures [label] and [endTime], the
    one of [restoreTimers] captures the stored timer's [endTime].  Both also
    capture their own handle, which is the key they are registered under. *)
Inductive Callback :=
| StartTimerTick (lbl : string) (e : Z)
| RestoreTimersTick (e : Z).

Inductive Effect :=
| notifier_notify (title message : string)
| showInformationMessage (message : string)
| showErrorMessage (message : string)
| postMessage (tasks : list Task) (timers : list PanelTimer)
| webviewView_show.

(** [context.globalState]: a key is absent until it is first written. *)
Record Memento := mkMemento {
  gs_activeTimers : option (list StoredTimer);
  gs_tasks : option (list Task)
}.

Record State := mkState {
  timers : list Timer;
  tasks : list Task;
  webviewView : bool;
  timerStatusBarItem_text : string;
  taskStatusBarItem_text : string;
  globalState : Memento;
  intervals : gmap nat Callback;
  next_handle : nat;
  log : list Effect
}.

Definition set_timers (v : list Timer) (st : State) : State :=
  mkState v (tasks st) (webviewView st) (timerStatusBarItem_text st)
    (taskStatusBarItem_text st) (globalState st) (intervals st) (next_handle st) (log st).

Definition set_tasks (v : list Task) (st : State) : State :=
  mkState (timers st) v (webviewView st) (timerStatusBarItem_text st)
    (taskStatusBarItem_text st) (globalState st) (intervals st) (next_handle st) (log st).

Definition set_webviewView (v : bool) (st : State) : State :=
  mkState (timers st) (tasks st) v (timerStatusBarItem_text st)
    (taskStatusBarItem_text st) (globalState st) (intervals st) (next_handle st) (log st).

Definition set_timerStatusBarItem_text (v : string) (st : State) : State :=
  mkState (timers st) (tasks st) (webviewView st) v
    (taskStatusBarItem_text st) (globalState st) (intervals st) (next_handle st) (log st).

Definition set_taskStatusBarItem_text (v : string) (st : State) : State :=
  mkState (timers st) (tasks st) (webviewView st) (timerStatusBarItem_text st)
    v (globalState st) (intervals st) (next_handle st) (log st).

Definition set_globalState (v : Memento) (st : State) : State :=
  mkState (timers st) (tasks st) (webviewView st) (timerStatusBarItem_text st)
    (taskStatusBarItem_text st) v (intervals st) (next_handle st) (log st).

Definition emit (e : Effect) (st : State) : State :=
  mkState (timers st) (tasks st) (webviewView st) (timerStatusBarItem_text st)
    (taskStatusBarItem_text st) (globalState st) (intervals st) (next_handle st)
    (log st ++ [e]).

(** [setInterval(cb, 1000)]: registers [cb] under a fresh handle. *)
Definition setInterval (cb : Callback) (st : State) : nat * State :=
  (next_handle st,
   mkState (timers st) (tasks st) (webviewView st) (timerStatusBarItem_text st)
     (taskStatusBarItem_text st) (globalState st)
     (<[next_handle st := cb]> (intervals st)) (S (next_handle st)) (log st)).

(** [clearInterval(h)]: a handle that is not registered is ignored. *)
Definition clearInterval (h : nat) (st : State) : State :=
  mkState (timers st) (tasks st) (webviewView st) (timerStatusBarItem_text st)
    (taskStatusBarItem_text st) (globalState st)
    (delete h (intervals st)) (next_handle st) (log st).

Definition globalState_update_activeTimers (v : list StoredTimer) (st : State) : State :=
  set_globalState (mkMemento (Some v) (gs_tasks (globalState st))) st.

Definition globalState_update_tasks (v : list Task) (st : State) : State :=
  set_globalState (mkMemento (gs_activeTimers (globalState st)) (Some v)) st.

(** ** View sync *)

(** The comparator of [updateStatusBar]: [(a, b) => a.endTime - b.endTime]. *)
Definition by_endTime (a b : Timer) : Z := (endTime a - endTime b)%Z.

(** The text after the label: minutes, a colon, seconds padded to two
    characters.  [Math.floor (x / d)] is [Z.div], [%] is [Z.rem]. *)
Definition minutes_seconds (remainingTime : Z) : string :=
  let minutesLeft := (remainingTime / (60 * 1000))%Z in
  let secondsLeft := (Z.rem remainingTime (60 * 1000) / 1000)%Z in
  Number_toString minutesLeft +:+ ":" +:+ padStart 2 "0" (Number_toString secondsLeft).

Definition timer_text (activeTimers : nat) (nextTimer : Timer) (now : Z) : string :=
  Number_toString (Z.of_nat activeTimers) +:+ " active timer(s) 🕒 " +:+
  label nextTimer +:+ ": " +:+ minutes_seconds (endTime nextTimer - now).

Definition task_text (ts : list Task) : string :=
  let totalTasks := length ts in
  if (0 <? totalTasks)%nat then
    Number_toString (Z.of_nat (length (filter (λ t, completed t = true) ts))) +:+ "/" +:+
    Number_toString (Z.of_nat totalTasks) +:+ " tasks completed"
  else "No tasks".

(** [updateStatusBar]: with at least one timer, [this.timers.sort(...)] sorts
    the array in place before its head is read. *)
Definition updateStatusBar (now : Z) (st : State) : State :=
  let st1 :=
    match timers st with
    | [] => set_timerStatusBarItem_text "No active timers" st
    | _ :: _ =>
        let sorted := Array_sort by_endTime (timers st) in
        match sorted with
        | nextTimer :: _ =>
            set_timerStatusBarItem_text
              (timer_text (length (timers st)) nextTimer now) (set_timers sorted st)
        | [] => set_timers sorted st (* never taken: sorting keeps the length *)
        end
    end in
  set_taskStatusBarItem_text (task_text (tasks st1)) st1.

Definition panel_timer (now : Z) (t : Timer) : PanelTimer :=
  mkPanelTimer (label t)
    (Number_toString ((endTime t - now) / (60 * 1000))%Z +:+ " min").

Definition sendDataToWebview (now : Z) (st : State) : State :=
  if webviewView st
  then emit (postMessage (tasks st) (map (panel_timer now) (timers st))) st
  else st.

Definition serialize_timer (t : Timer) : StoredTimer :=
  mkStoredTimer (label t) (endTime t).

Definition updateViews (now : Z) (st : State) : State :=
  let st := updateStatusBar now st in
  let st := sendDataToWebview now st in
  let serializedTimers := map serialize_timer (timers st) in
  let st := globalState_update_activeTimers serializedTimers st in
  globalState_update_tasks (tasks st) st.

(** ** Task list *)

Definition in_range (index : Z) (st : State) : bool :=
  (0 <=? index)%Z && (index <? Z.of_nat (length (tasks st)))%Z.

Definition with_description (d : string) (t : Task) : Task := mkTask d (completed t).
Definition with_toggled (t : Task) : Task := mkTask (description t) (negb (completed t)).

Definition editTask (index : Z) (d : string) (now : Z) (st : State) : State :=
  if in_range index st
  then updateViews now (set_tasks (alter (with_description d) (Z.to_nat index) (tasks st)) st)
  else st.

Definition toggleTask (index : Z) (now : Z) (st : State) : State :=
  if in_range index st
  then updateViews now (set_tasks (alter with_toggled (Z.to_nat index) (tasks st)) st)
  else st.

Definition deleteTask (index : Z) (now : Z) (st : State) : State :=
  if in_range index st
  then updateViews now (set_tasks (delete (Z.to_nat index) (tasks st)) st)
  else st.

(** The result of an input box: [None] when it was dismissed. A dismissed box
    and an empty answer are both falsy. *)
Definition falsy (input : option string) : bool :=
  match input with
  | None => true
  | Some s => bool_decide (s = EmptyString)
  end.

Definition addTask (task : option string) (now : Z) (st : State) : State :=
  match task with
  | Some d =>
      if falsy task then st
      else updateViews now (set_tasks (tasks st ++ [mkTask d false]) st)
  | None => st
  end.

(** ** Timer engine *)

Definition has_label (l : string) (ts : list Timer) : bool :=
  existsb (λ t, bool_decide (label t = l)) ts.

(** The loop [while (this.timers.some(t => t.label === label)) label += '*'],
    run for at most [fuel] tests of its condition; [None] when the fuel is
    used up before the loop exits. *)
Fixpoint unique_label_loop (fuel : nat) (ts : list Timer) (l : string) : option string :=
  match fuel with
  | O => None
  | S fuel' =>
      if has_label l ts then unique_label_loop fuel' ts (l +:+ "*") else Some l
  end.

(** One test more than there are timers is always enough
    ([unique_label_loop_exits] below). *)
Definition unique_label (ts : list Timer) (l : string) : option string :=
  unique_label_loop (S (length ts)) ts l.

(** [validateInput] of the minutes prompt, on the number [parseInt] reads
    from the text. The box only closes with an answer it accepts or by being
    dismissed, so [startTimer] below treats a refused answer as a dismissal;
    a text that is not a number is refused in the same way. *)
Definition validateInput (minutes : Z) : option string :=
  if (minutes <=? 0)%Z then Some "Please enter a positive number" else None.

(** [startTimer]: [label] is the answer to the first prompt, [minutes] the
    number parsed from the answer to the second one ([None]: dismissed). *)
Definition startTimer (lbl : option string) (minutes : option Z) (now : Z) (st : State) : State :=
  match lbl, minutes with
  | Some l0, Some m =>
      if falsy lbl then st
      else
        match validateInput m with
        | Some _ => st
        | None =>
            let endTime := (now + m * 60 * 1000)%Z in
            match unique_label (timers st) l0 with
            | Some l =>
                let '(timerInterval, st) := setInterval (StartTimerTick l endTime) st in
                let st := set_timers (timers st ++ [mkTimer l timerInterval endTime]) st in
                updateViews now st
            | None => st (* never taken: the loop exits *)
            end
        end
  | _, _ => st
  end.

Definition dquote : ascii := "034"%char.

Definition stopTimer (l : string) (now : Z) (st : State) : State :=
  match find (λ t, bool_decide (label t = l)) (timers st) with
  | Some timer =>
      let st := clearInterval (timerInterval timer) st in
      let st := emit (showInformationMessage (l +:+ " timer stopped.")) st in
      let st := set_timers (filter (λ t, label t ≠ l) (timers st)) st in
      updateViews now st
  | None =>
      emit (showErrorMessage
              ("No timer found with label " +:+ String dquote (l +:+ String dquote "."))) st
  end.

Definition clearTimers (now : Z) (st : State) : State :=
  let st := foldl (λ s timer, clearInterval (timerInterval timer) s) st (timers st) in
  let st := set_timers [] st in
  let st := globalState_update_activeTimers [] st in
  let st := emit (showInformationMessage "All timers cleared.") st in
  updateViews now st.

(** One round of the [forEach] of [restoreTimers]. *)
Definition restore_one (now : Z) (st : State) (timer : StoredTimer) : State :=
  let remainingTime := (stored_endTime timer - now)%Z in
  if (remainingTime <=? 0)%Z then
    emit (showInformationMessage (stored_label timer +:+ " timer has completed.")) st
  else
    let '(timerInterval, st) := setInterval (RestoreTimersTick (stored_endTime timer)) st in
    set_timers
      (timers st ++ [mkTimer (stored_label timer) timerInterval (stored_endTime timer)]) st.

Definition restoreTimers (now : Z) (st : State) : State :=
  let st := set_timers [] st in
  let stored_timers := default [] (gs_activeTimers (globalState st)) in
  let st := foldl (restore_one now) st stored_timers in
  updateStatusBar now st.

(** [restoreTasks]: the constructor has written the key before this runs. *)
Definition restoreTasks (st : State) : State :=
  set_tasks (default [] (gs_tasks (globalState st))) st.

Definition initializeStatusBar (now : Z) (st : State) : State :=
  let st := set_timerStatusBarItem_text "No active timers" st in
  let st := set_taskStatusBarItem_text "No tasks" st in
  updateStatusBar now st.

(** [new TaskTimerProvider(context)], as [activate] runs it in a process that
    has just started: no interval is registered yet. [h0] is where the
    handle counter stands. *)
Definition constructor (context : Memento) (h0 : nat) (now : Z) : State :=
  let st := mkState [] [] false EmptyString EmptyString context ∅ h0 [] in
  let st :=
    match gs_activeTimers (globalState st) with
    | None => globalState_update_activeTimers [] st
    | Some _ => st
    end in
  let st :=
    match gs_tasks (globalState st) with
    | None => globalState_update_tasks [] st
    | Some _ => st
    end in
  let st := initializeStatusBar now st in
  let st := restoreTimers now st in
  restoreTasks st.

(** One firing of the callback registered under handle [h]; a handle that
    is not registered has no callback to fire. *)
Definition tick (h : nat) (now : Z) (st : State) : State :=
  match intervals st !! h with
  | Some (StartTimerTick l endTime) =>
      let remainingTime := (endTime - now)%Z in
      if (remainingTime <=? 0)%Z then
        let st := clearInterval h st in
        let st := emit (notifier_notify "Time's up!" (l +:+ " timer has completed.")) st in
        let st := emit (showInformationMessage (l +:+ " timer has completed.")) st in
        let st := set_timers (filter (λ t, label t ≠ l) (timers st)) st in
        updateStatusBar now st
      else updateStatusBar now st
  | Some (RestoreTimersTick endTime) =>
      let timeRemaining := (endTime - now)%Z in
      if (timeRemaining <=? 0)%Z then clearInterval h st else st
  | None => st
  end.

(** ** Panel and commands *)

Definition resolveWebviewView (st : State) : State := set_webviewView true st.

Definition showTaskManager (st : State) : State :=
  if webviewView st then emit webviewView_show st else st.

Inductive Message :=
| getData
| msg_editTask (index : Z) (d : string)
| msg_deleteTask (index : Z)
| msg_toggleTask (index : Z).

(** The handler installed by [resolveWebviewView]. *)
Definition onDidReceiveMessage (message : Message) (now : Z) (st : State) : State :=
  if webviewView st then
    match message with
    | getData => sendDataToWebview now st
    | msg_editTask i d => editTask i d now st
    | msg_deleteTask i => deleteTask i now st
    | msg_toggleTask i => toggleTask i now st
    end
  else st.

Definition deactivate (st : State) : State :=
  foldl (λ s timer, clearInterval (timerInterval timer) s) st (timers st).

(** Everything that can happen to a running controller. [Restart] is the
    editor being closed and opened again: [deactivate], then a new process
    whose constructor reads the store the old one left behind. *)
Inductive Event :=
| StartTimer (lbl : option string) (minutes : option Z)
| StopTimer (l : string)
| ClearTimers
| Tick (h : nat)
| AddTask (task : option string)
| EditTask (index : Z) (d : string)
| ToggleTask (index : Z)
| DeleteTask (index : Z)
| ShowTaskManager
| ResolveWebviewView
| WebviewMessage (message : Message)
| Restart.

Definition step (now : Z) (ev : Event) (st : State) : State :=
  match ev with
  | StartTimer l m => startTimer l m now st
  | StopTimer l => stopTimer l now st
  | ClearTimers => clearTimers now st
  | Tick h => tick h now st
  | AddTask t => addTask t now st
  | EditTask i d => editTask i d now st
  | ToggleTask i => toggleTask i now st
  | DeleteTask i => deleteTask i now st
  | ShowTaskManager => showTaskManager st
  | ResolveWebviewView => resolveWebviewView st
  | WebviewMessage m => onDidReceiveMessage m now st
  | Restart => constructor (globalState st) (next_handle st) now
  end.

Definition run (trace : list (Z * Event)) (st : State) : State :=
  foldl (λ s '(now, ev), step now ev s) st trace.

(** The store of a first run: no key has been written. *)
Definition empty_store : Memento := mkMemento None None.

Inductive reachable : State -> Prop :=
| reachable_activate h0 now : reachable (constructor empty_store h0 now)
| reachable_step st now ev : reachable st -> reachable (step now ev st).

(** * Vocabulary of the properties *)

(** ** Order *)

Definition ascending (ts : list Timer) : Prop :=
  StronglySorted (λ a b, (endTime a <= endTime b)%Z) ts.

Definition stored_ascending (l : list StoredTimer) : Prop :=
  StronglySorted (λ a b, (stored_endTime a <= stored_endTime b)%Z) l.

(** The comparator of [updateStatusBar], on label/endTime pairs. *)
Definition by_stored_endTime (a b : StoredTimer) : Z :=
  (stored_endTime a - stored_endTime b)%Z.

(** ** The store *)

(** The store mirrors the two lists when both entries are the lists'
    serialisations. *)
Definition snapshot_in_sync (st : State) : Prop :=
  gs_activeTimers (globalState st) = Some (map serialize_timer (timers st)) /\
  gs_tasks (globalState st) = Some (tasks st).

(** A stored timer that [restoreTimers], run at time [now], re-arms. *)
Definition not_expired (now : Z) (e : StoredTimer) : Prop :=
  (now < stored_endTime e)%Z.

Global Instance not_expired_dec now e : Decision (not_expired now e).
Proof. unfold not_expired. apply _. Defined.

(** ** The text of the status bar *)

Definition digit (d : Z) : ascii := ascii_of_nat (48 + Z.to_nat d).

(** The seconds field as a clock shows it: two decimal digits. *)
Definition two_digits (s : Z) : string :=
  String (digit (s / 10)) (String (digit (s mod 10)) EmptyString).

(** The timer item shows the idle text exactly when no timer is active. *)
Definition idle_text_iff_no_timers (st : State) : Prop :=
  timerStatusBarItem_text st = "No active timers" <-> timers st = [].

(** The last two characters of a text, when it has that many. *)
Definition ends_with_two (s : string) : option (ascii * ascii) :=
  match rev (list_ascii_of_string s) with
  | b :: a :: _ => Some (a, b)
  | _ => None
  end.

(** ** Labels *)

(** [k] marker characters. *)
Definition stars (k : nat) : string := repeat_char k "*".

(** How many timers have a label at least as long as [l]: what the loop
    of [unique_label_loop] uses up. *)
Definition room (l : string) (ts : list Timer) : nat :=
  length (filter (λ t, String.length l <= String.length (label t)) ts).

(** ** States of a run *)

(** A timer owns a callback when the callback captured the timer's data. *)
Definition owns (t : Timer) (cb : Callback) : Prop :=
  cb = StartTimerTick (label t) (endTime t) ∨ cb = RestoreTimersTick (endTime t).

(** Handles identify the timers, every handle in use was drawn from the
    counter, and every live registration belongs to a timer of the list. *)
Record handles_ok (st : State) : Prop := mkHandlesOk {
  handles_distinct : NoDup (timerInterval <$> timers st);
  handles_drawn : Forall (λ t, timerInterval t < next_handle st) (timers st);
  registrations_owned : ∀ h cb, intervals st !! h = Some cb ->
      ∃ t, t ∈ timers st ∧ timerInterval t = h ∧ owns t cb
}.

(** What every state of a run satisfies: besides the above, no label occurs
    twice among the timers, nor in the stored snapshot. *)
Record consistent (st : State) : Prop := mkConsistent {
  labels_distinct : NoDup (label <$> timers st);
  consistent_handles : handles_ok st;
  stored_labels_distinct :
    NoDup (stored_label <$> default [] (gs_activeTimers (globalState st)))
}.

Definition well_formed (st : State) : Prop := consistent st ∧ ascending (timers st).

(** A handle is retired when it was drawn and is not registered. *)
Definition retired (h : nat) (st : State) : Prop :=
  h < next_handle st ∧ intervals st !! h = None.

(** ** Effects *)

(** The message [restoreTimers] shows for a stored timer that has expired. *)
Definition announce_completed (e : StoredTimer) : Effect :=
  showInformationMessage (stored_label e +:+ " timer has completed.").

(** Effects that go to the panel. *)
Definition is_panel_effect (e : Effect) : bool :=
  match e with
  | postMessage _ _ | webviewView_show => true
  | _ => false
  end.

(** No panel is attached and nothing has gone to one. *)
Definition quiet (st : State) : Prop :=
  webviewView st = false ∧ Forall (λ e, is_panel_effect e = false) (log st).

(** The store as the constructor leaves it: a missing key reads as the
    empty list. *)
Definition initialized (context : Memento) : Memento :=
  mkMemento (Some (default [] (gs_activeTimers context)))
            (Some (default [] (gs_tasks context))).

(** The store holds the task list and at least the active timers. *)
Definition store_covers (st : State) : Prop :=
  gs_tasks (globalState st) = Some (tasks st) ∧
  map serialize_timer (timers st) `sublist_of`
    default [] (gs_activeTimers (globalState st)).

(** ... and the stored timers are in order of endTime. *)
Definition store_sound (st : State) : Prop :=
  store_covers st ∧ stored_ascending (default [] (gs_activeTimers (globalState st))).

Definition completed_count (ts : list Task) : nat :=
  length (filter (λ t, completed t = true) ts).

(** Every timer of the list has the callback of [restoreTimers] registered
    under its handle. *)
Definition all_armed (st : State) : Prop :=
  Forall (λ t, timerInterval t < next_handle st ∧
               intervals st !! timerInterval t = Some (RestoreTimersTick (endTime t)))
         (timers st).

(** ** Sample runs *)

(** A store holding one timer, A, that ends at time 1000. *)
Definition store_A : Memento :=
  mkMemento (Some [mkStoredTimer "A" 1000%Z]) (Some []).

(** A run with one five-minute timer. *)
Definition one_timer : State :=
  run [(0%Z, StartTimer (Some "Build") (Some 5%Z))] (constructor empty_store 0 0%Z).

(** A one-minute timer A is created, the editor restarts a second later,
    the restored callback fires at A's endTime (and only cancels itself), and
    a task is added a good minute after that. *)
Definition past_endTime : State :=
  run [(0%Z, StartTimer (Some "A") (Some 1%Z)); (1000%Z, Restart);
       (60000%Z, Tick 1); (121500%Z, AddTask (Some "x"))]
    (constructor empty_store 0 0%Z).

(** A run with two tasks. *)
Definition two_tasks : State :=
  run [(0%Z, AddTask (Some "Write spec")); (0%Z, AddTask (Some "Review"))]
    (constructor empty_store 0 0%Z).

(** A store with an expired timer, a running one and a task. *)
Definition store_mixed : Memento :=
  mkMemento (Some [mkStoredTimer "Old" 500%Z; mkStoredTimer "New" 5000%Z])
            (Some [mkTask "Write spec" true]).

(** A run with a five-minute and a one-minute timer. *)
Definition two_timers : State :=
  run [(0%Z, StartTimer (Some "Build") (Some 5%Z));
       (0%Z, StartTimer (Some "Deploy") (Some 1%Z))] (constructor empty_store 0 0%Z).

(** The run [two_timers] after the one-minute timer has expired. *)
Definition one_expired : State := run [(60000%Z, Tick 1)] two_timers.

(** * Facts about the primitives *)

Section ArraySortFacts.
Context {A : Type} (key : A -> Z).
Local Abbreviation cmp := (λ a b : A, (key a - key b)%Z).
Local Abbreviation le := (λ a b : A, (key a <= key b)%Z).

Lemma sort_insert_Permutation x l : sort_insert cmp x l ≡ₚ x :: l.
Proof.
  induction l as [|y l IH]; simpl; [done|].
  destruct (cmp x y <=? 0)%Z; [done|].
  rewrite IH. apply Permutation_swap.
Qed.

Lemma Array_sort_Permutation l : Array_sort cmp l ≡ₚ l.
Proof.
  induction l as [|x l IH]; simpl; [done|].
  rewrite sort_insert_Permutation. by rewrite IH.
Qed.

Lemma Array_sort_length l : length (Array_sort cmp l) = length l.
Proof. by rewrite Array_sort_Permutation. Qed.

Lemma sort_insert_sorted x l :
  StronglySorted le l -> StronglySorted le (sort_insert cmp x l).
Proof.
  induction 1 as [|y l Hl IH Hy]; simpl.
  - repeat constructor.
  - destruct (Z.leb_spec (cmp x y) 0) as [Hle|Hgt].
    + constructor; [by constructor|].
      constructor; [cbv beta in *; lia|].
      eapply Forall_impl; [exact Hy|]. cbv beta. intros; lia.
    + constructor; [done|].
      rewrite sort_insert_Permutation. constructor; [|done].
      cbv beta in *; lia.
Qed.

Lemma Array_sort_sorted l : StronglySorted le (Array_sort cmp l).
Proof.
  induction l; simpl; [constructor|by apply sort_insert_sorted].
Qed.

(** Sorting an array that is in order already leaves every element where
    it is: the sort is stable. *)
Lemma Array_sort_id l : StronglySorted le l -> Array_sort cmp l = l.
Proof.
  induction 1 as [|x l Hl IH Hx]; simpl; [done|].
  rewrite IH. destruct Hx as [|y l Hy _]; simpl; [done|].
  destruct (Z.leb_spec (cmp x y) 0); [done|]. cbv beta in *; lia.
Qed.

Lemma StronglySorted_filter_list (P : A -> Prop) `{!∀ x, Decision (P x)} l :
  StronglySorted le l -> StronglySorted le (filter P l).
Proof.
  induction 1 as [|x l Hl IH Hx]; [constructor|].
  rewrite filter_cons. case_decide; [|done].
  constructor; [done|].
  apply Forall_forall. intros y [_ Hy]%list_elem_of_filter.
  by eapply Forall_forall in Hx.
Qed.

Lemma StronglySorted_snoc l x :
  StronglySorted le l -> Forall (λ y, le y x) l -> StronglySorted le (l ++ [x]).
Proof.
  intros Hl Hx. apply StronglySorted_app. split_and!; [|done|repeat constructor].
  intros y z Hy ->%list_elem_of_singleton. by eapply Forall_forall in Hx.
Qed.
End ArraySortFacts.

Section ArraySortMap.
Context {A B : Type} (f : A -> B) (cmpA : A -> A -> Z) (cmpB : B -> B -> Z).
Hypothesis cmp_f : ∀ a b, cmpB (f a) (f b) = cmpA a b.

Lemma sort_insert_map x l :
  map f (sort_insert cmpA x l) = sort_insert cmpB (f x) (map f l).
Proof.
  induction l as [|y l IH]; simpl; [done|].
  rewrite cmp_f. destruct (cmpA x y <=? 0)%Z; simpl; [done|]. by rewrite IH.
Qed.

Lemma Array_sort_map l : map f (Array_sort cmpA l) = Array_sort cmpB (map f l).
Proof.
  induction l as [|x l IH]; simpl; [done|]. by rewrite sort_insert_map, IH.
Qed.
End ArraySortMap.

Lemma sort_ascending ts : ascending (Array_sort by_endTime ts).
Proof. apply (Array_sort_sorted endTime). Qed.

Lemma sort_ascending_id ts : ascending ts -> Array_sort by_endTime ts = ts.
Proof. apply (Array_sort_id endTime). Qed.

Lemma sort_timers_Permutation ts : Array_sort by_endTime ts ≡ₚ ts.
Proof. apply (Array_sort_Permutation endTime). Qed.

Lemma sort_timers_length ts : length (Array_sort by_endTime ts) = length ts.
Proof. apply (Array_sort_length endTime). Qed.

Lemma sort_timers_nil_inv ts : Array_sort by_endTime ts = [] -> ts = [].
Proof.
  intros H. apply (f_equal length) in H. rewrite sort_timers_length in H.
  by destruct ts.
Qed.

(** * What a view sync changes *)

Ltac status_bar_cases st :=
  unfold updateStatusBar;
  destruct (timers st) as [|t0 ts0] eqn:?; simpl;
  [|destruct (sort_insert by_endTime t0 (Array_sort by_endTime ts0)) eqn:?; simpl];
  try done.

Lemma updateStatusBar_timers now st :
  timers (updateStatusBar now st) = Array_sort by_endTime (timers st).
Proof. status_bar_cases st. Qed.

Lemma updateStatusBar_tasks now st : tasks (updateStatusBar now st) = tasks st.
Proof. status_bar_cases st. Qed.

Lemma updateStatusBar_webviewView now st :
  webviewView (updateStatusBar now st) = webviewView st.
Proof. status_bar_cases st. Qed.

Lemma updateStatusBar_globalState now st :
  globalState (updateStatusBar now st) = globalState st.
Proof. status_bar_cases st. Qed.

Lemma updateStatusBar_intervals now st :
  intervals (updateStatusBar now st) = intervals st.
Proof. status_bar_cases st. Qed.

Lemma updateStatusBar_next_handle now st :
  next_handle (updateStatusBar now st) = next_handle st.
Proof. status_bar_cases st. Qed.

Lemma updateStatusBar_log now st : log (updateStatusBar now st) = log st.
Proof. status_bar_cases st. Qed.

Lemma updateStatusBar_timer_text now st :
  timerStatusBarItem_text (updateStatusBar now st) =
  match Array_sort by_endTime (timers st) with
  | [] => "No active timers"
  | nextTimer :: _ => timer_text (length (timers st)) nextTimer now
  end.
Proof.
  status_bar_cases st.
  exfalso. by eapply (app_cons_not_nil [] ts0 t0), eq_sym, sort_timers_nil_inv.
Qed.

Lemma sendDataToWebview_timers now st : timers (sendDataToWebview now st) = timers st.
Proof. unfold sendDataToWebview. by destruct (webviewView st). Qed.

Lemma sendDataToWebview_tasks now st : tasks (sendDataToWebview now st) = tasks st.
Proof. unfold sendDataToWebview. by destruct (webviewView st). Qed.

Lemma sendDataToWebview_globalState now st :
  globalState (sendDataToWebview now st) = globalState st.
Proof. unfold sendDataToWebview. by destruct (webviewView st). Qed.

Lemma sendDataToWebview_intervals now st :
  intervals (sendDataToWebview now st) = intervals st.
Proof. unfold sendDataToWebview. by destruct (webviewView st). Qed.

Lemma sendDataToWebview_next_handle now st :
  next_handle (sendDataToWebview now st) = next_handle st.
Proof. unfold sendDataToWebview. by destruct (webviewView st). Qed.

Lemma sendDataToWebview_log now st :
  log (sendDataToWebview now st) =
  if webviewView st
  then log st ++ [postMessage (tasks st) (map (panel_timer now) (timers st))]
  else log st.
Proof. unfold sendDataToWebview. by destruct (webviewView st). Qed.

Lemma updateViews_timers now st :
  timers (updateViews now st) = Array_sort by_endTime (timers st).
Proof.
  unfold updateViews. simpl.
  by rewrite sendDataToWebview_timers, updateStatusBar_timers.
Qed.

Lemma updateViews_tasks now st : tasks (updateViews now st) = tasks st.
Proof.
  unfold updateViews. simpl.
  by rewrite sendDataToWebview_tasks, updateStatusBar_tasks.
Qed.

Lemma updateViews_intervals now st : intervals (updateViews now st) = intervals st.
Proof.
  unfold updateViews. simpl.
  by rewrite sendDataToWebview_intervals, updateStatusBar_intervals.
Qed.

Lemma updateViews_next_handle now st : next_handle (updateViews now st) = next_handle st.
Proof.
  unfold updateViews. simpl.
  by rewrite sendDataToWebview_next_handle, updateStatusBar_next_handle.
Qed.

Lemma updateViews_globalState now st :
  globalState (updateViews now st) =
  mkMemento (Some (map serialize_timer (Array_sort by_endTime (timers st))))
            (Some (tasks st)).
Proof.
  unfold updateViews. simpl.
  by rewrite sendDataToWebview_timers, sendDataToWebview_tasks,
    updateStatusBar_timers, updateStatusBar_tasks.
Qed.

Lemma updateViews_log now st :
  log (updateViews now st) =
  if webviewView st
  then log st ++ [postMessage (tasks st)
                    (map (panel_timer now) (Array_sort by_endTime (timers st)))]
  else log st.
Proof.
  unfold updateViews. simpl.
  rewrite sendDataToWebview_log, updateStatusBar_webviewView, updateStatusBar_log,
    updateStatusBar_tasks, updateStatusBar_timers. done.
Qed.

Lemma updateViews_in_sync now st : snapshot_in_sync (updateViews now st).
Proof.
  unfold snapshot_in_sync.
  by rewrite updateViews_globalState, updateViews_timers, updateViews_tasks.
Qed.

(** * The status-bar summary *)

(** The printed form of a positive number starts with a digit. *)
Lemma Number_toString_pos_head p :
  ∃ c s, Number_toString (Z.pos p) = String c s ∧
         (48 <= nat_of_ascii c <= 57)%nat.
Proof.
  unfold Number_toString. simpl.
  destruct (Pos.to_uint p); simpl; eexists _, _;
    (split; [reflexivity|cbv; lia]).
Qed.

Lemma timer_text_not_idle n nextTimer now :
  timer_text (S n) nextTimer now ≠ "No active timers".
Proof.
  unfold timer_text. change (Z.of_nat (S n)) with (Z.pos (Pos.of_succ_nat n)).
  destruct (Number_toString_pos_head (Pos.of_succ_nat n)) as (c & s & -> & Hc).
  simpl. intros [= -> _]. cbv in Hc. lia.
Qed.

(** The head of a sorted array is a minimum of the array it was sorted from. *)
Lemma sort_head_minimum ts nextTimer rest :
  Array_sort by_endTime ts = nextTimer :: rest ->
  nextTimer ∈ ts ∧ Forall (λ t, (endTime nextTimer <= endTime t)%Z) ts.
Proof.
  intros Hs. pose proof (sort_ascending ts) as Ha.
  pose proof (sort_timers_Permutation ts) as Hp.
  rewrite Hs in Ha, Hp. split.
  - rewrite <- Hp. left.
  - rewrite <- Hp. apply StronglySorted_cons in Ha as [Hall _].
    constructor; [lia|done].
Qed.

Lemma padStart_two_digits (s : Z) :
  (0 <= s < 60)%Z -> padStart 2 "0" (Number_toString s) = two_digits s.
Proof.
  intros Hs.
  assert (∃ n : nat, (n < 60)%nat ∧ s = Z.of_nat n) as (n & Hn & ->).
  { exists (Z.to_nat s). lia. }
  do 60 (destruct n as [|n]; [reflexivity|]). lia.
Qed.

(** While the remaining time is not negative, the text is the number of
    whole minutes left and the number of whole seconds left in the current
    minute, the latter as exactly two digits. *)
Lemma minutes_seconds_nonneg (r : Z) :
  (0 <= r)%Z ->
  minutes_seconds r =
    Number_toString (r / 60000)%Z +:+ ":" +:+ two_digits ((r mod 60000) / 1000)%Z.
Proof.
  intros Hr. unfold minutes_seconds.
  rewrite Z.rem_mod_nonneg by lia.
  rewrite padStart_two_digits; [done|].
  change (60 * 1000)%Z with 60000%Z.
  pose proof (Z.mod_pos_bound r 60000 ltac:(lia)).
  split; [apply Z.div_pos; lia|apply Z.div_lt_upper_bound; lia].
Qed.

(** * Sorting in place *)

(** Claim C9. Recomputing the status bar replaces the timer array by its
    sorted arrangement (ascending endTime, equal endTimes in their former
    order). So after a view sync the timer list is a rearrangement of the one
    before that ascends in endTime, and the stored snapshot and the panel
    payload (sent when a panel is attached) list the timers in that order.
    The last part shows the order is not the order of creation: a ten-minute
    timer A followed by a five-minute timer B are kept as B, A. *)
Theorem view_sync_orders_by_endTime (now : Z) (st : State) :
  timers (updateStatusBar now st) = Array_sort by_endTime (timers st) /\
  ascending (timers (updateViews now st)) /\
  timers (updateViews now st) ≡ₚ timers st /\
  gs_activeTimers (globalState (updateViews now st)) =
    Some (map serialize_timer (timers (updateViews now st))) /\
  log (updateViews now st) =
    (if webviewView st
     then log st ++ [postMessage (tasks st)
                       (map (panel_timer now) (timers (updateViews now st)))]
     else log st) /\
  map label
    (timers (run [(0%Z, StartTimer (Some "A") (Some 10%Z));
                  (0%Z, StartTimer (Some "B") (Some 5%Z))]
               (constructor empty_store 0 0%Z))) = ["B"; "A"].
Proof.
  split_and!.
  - apply updateStatusBar_timers.
  - rewrite updateViews_timers. apply sort_ascending.
  - rewrite updateViews_timers. apply sort_timers_Permutation.
  - by rewrite updateViews_globalState, updateViews_timers.
  - by rewrite updateViews_log, updateViews_timers.
  - vm_compute. reflexivity.
Qed.

(** * Restoring the snapshot *)

Lemma restore_one_serialize now st e :
  map serialize_timer (timers (restore_one now st e)) =
  map serialize_timer (timers st) ++ filter (not_expired now) [e].
Proof.
  unfold restore_one. rewrite filter_cons, filter_nil. unfold not_expired.
  destruct (Z.leb_spec (stored_endTime e - now) 0); simpl.
  - rewrite decide_False by lia. by rewrite app_nil_r.
  - rewrite decide_True by lia. rewrite map_app. simpl. by destruct e.
Qed.

Lemma restore_one_globalState now st e :
  globalState (restore_one now st e) = globalState st.
Proof. unfold restore_one. by destruct (_ <=? _)%Z. Qed.

Lemma foldl_restore_one_serialize now stored st :
  map serialize_timer (timers (foldl (restore_one now) st stored)) =
  map serialize_timer (timers st) ++ filter (not_expired now) stored.
Proof.
  revert st. induction stored as [|e stored IH]; intros st; simpl.
  - by rewrite app_nil_r.
  - rewrite IH, restore_one_serialize, <- app_assoc.
    by rewrite <- filter_app.
Qed.

Lemma foldl_restore_one_globalState now stored st :
  globalState (foldl (restore_one now) st stored) = globalState st.
Proof.
  revert st. induction stored as [|e stored IH]; intros st; simpl; [done|].
  by rewrite IH, restore_one_globalState.
Qed.

Lemma ascending_serialize ts : ascending ts <-> stored_ascending (map serialize_timer ts).
Proof.
  unfold ascending, stored_ascending.
  induction ts as [|t ts IH]; simpl.
  - split; constructor.
  - rewrite !StronglySorted_cons, IH, Forall_fmap. done.
Qed.

(** The timers [restoreTimers] leaves in memory, as pairs: the entries of the
    snapshot that have not expired, sorted. *)
Lemma restoreTimers_serialize now st :
  ∃ pushed,
    map serialize_timer pushed =
      filter (not_expired now) (default [] (gs_activeTimers (globalState st))) ∧
    timers (restoreTimers now st) = Array_sort by_endTime pushed.
Proof.
  unfold restoreTimers. rewrite updateStatusBar_timers.
  eexists. split; [|reflexivity].
  by rewrite foldl_restore_one_serialize.
Qed.

(** Whatever the store holds, restoring keeps the entries that have not
    expired and arranges them by endTime. *)
Lemma restoreTimers_sorts_unexpired now st :
  map serialize_timer (timers (restoreTimers now st)) =
  Array_sort by_stored_endTime
    (filter (not_expired now) (default [] (gs_activeTimers (globalState st)))).
Proof.
  destruct (restoreTimers_serialize now st) as (pushed & <- & ->).
  by apply Array_sort_map.
Qed.

(** When the snapshot ascends in endTime, nothing is rearranged. *)
Lemma restoreTimers_of_ascending now st stored :
  gs_activeTimers (globalState st) = Some stored ->
  stored_ascending stored ->
  map serialize_timer (timers (restoreTimers now st)) = filter (not_expired now) stored.
Proof.
  intros Hgs Hasc.
  destruct (restoreTimers_serialize now st) as (pushed & Hp & ->).
  rewrite Hgs in Hp. simpl in Hp.
  rewrite sort_ascending_id; [done|].
  apply ascending_serialize. rewrite Hp.
  by apply (StronglySorted_filter_list stored_endTime).
Qed.

Lemma constructor_timers context h0 now :
  timers (constructor context h0 now) =
  timers (restoreTimers now
            (mkState [] [] false "No active timers" "No tasks"
               (mkMemento (Some (default [] (gs_activeTimers context)))
                          (Some (default [] (gs_tasks context))))
               ∅ h0 [])).
Proof.
  unfold constructor, restoreTasks. simpl.
  destruct context as [[a|] [t|]]; reflexivity.
Qed.




(** * Unique labels *)

Lemma string_app_cons c (s1 s2 : string) : String c s1 +:+ s2 = String c (s1 +:+ s2).
Proof. reflexivity. Qed.

Lemma string_app_assoc (s1 s2 s3 : string) : (s1 +:+ s2) +:+ s3 = s1 +:+ (s2 +:+ s3).
Proof.
  induction s1 as [|c s1 IH]; [done|]. by rewrite !string_app_cons, IH.
Qed.

Lemma string_app_length (s1 s2 : string) :
  String.length (s1 +:+ s2) = String.length s1 + String.length s2.
Proof.
  induction s1 as [|c s1 IH]; [done|]. rewrite string_app_cons. simpl. by rewrite IH.
Qed.

Lemma string_app_nil_r (s : string) : s +:+ EmptyString = s.
Proof.
  induction s as [|c s IH]; [done|]. by rewrite string_app_cons, IH.
Qed.

Lemma append_star_stars l k : (l +:+ "*") +:+ stars k = l +:+ stars (S k).
Proof. by rewrite string_app_assoc. Qed.

Lemma has_label_true l ts : has_label l ts = true <-> l ∈ label <$> ts.
Proof.
  unfold has_label. rewrite existsb_exists, list_elem_of_fmap.
  split.
  - intros (t & Hin & Ht). exists t. apply bool_decide_eq_true in Ht.
    split; [done|]. by apply list_elem_of_In.
  - intros (t & -> & Hin). exists t. split; [by apply list_elem_of_In|].
    by apply bool_decide_eq_true.
Qed.

Lemma has_label_false l ts : has_label l ts = false <-> l ∉ label <$> ts.
Proof.
  rewrite <- has_label_true. destruct (has_label l ts); naive_solver.
Qed.

Lemma room_le_length l ts : room l ts <= length ts.
Proof. apply length_filter. Qed.

Lemma room_append_le l ts : room (l +:+ "*") ts <= room l ts.
Proof.
  unfold room. rewrite string_app_length. simpl String.length.
  induction ts as [|t ts IH]; [done|].
  rewrite !filter_cons. repeat case_decide; simpl; lia.
Qed.

Lemma room_append_lt l ts :
  has_label l ts = true -> room (l +:+ "*") ts < room l ts.
Proof.
  pose proof (room_append_le l) as Hle. revert Hle.
  unfold room. rewrite string_app_length. simpl String.length. intros Hle.
  induction ts as [|t ts IH]; simpl; [done|].
  intros [Ht|Hts]%orb_true_iff.
  - apply bool_decide_eq_true in Ht. specialize (Hle ts).
    rewrite !filter_cons, Ht.
    rewrite decide_False by lia. rewrite decide_True by lia. simpl. lia.
  - specialize (IH Hts).
    rewrite !filter_cons. repeat case_decide; simpl; lia.
Qed.

(** With more fuel than there is room the loop exits, on the first of
    [l], [l*], [l**], ... that no timer carries. *)
Lemma unique_label_loop_spec fuel ts l :
  room l ts < fuel ->
  ∃ k, unique_label_loop fuel ts l = Some (l +:+ stars k) ∧
       has_label (l +:+ stars k) ts = false ∧
       ∀ j, j < k -> has_label (l +:+ stars j) ts = true.
Proof.
  revert l. induction fuel as [|fuel IH]; intros l Hroom; [lia|].
  simpl. destruct (has_label l ts) eqn:Hl.
  - destruct (IH (l +:+ "*")) as (k & Hk & Hfree & Hbelow).
    { pose proof (room_append_lt l ts Hl). lia. }
    exists (S k). rewrite <- append_star_stars. split_and!; [done..|].
    intros [|j] Hj.
    + by rewrite string_app_nil_r.
    + rewrite <- append_star_stars. apply Hbelow. lia.
  - exists 0. rewrite string_app_nil_r. split_and!; [done..|]. intros; lia.
Qed.

Lemma unique_label_loop_exits ts l :
  ∃ k, unique_label ts l = Some (l +:+ stars k) ∧
       has_label (l +:+ stars k) ts = false ∧
       ∀ j, j < k -> has_label (l +:+ stars j) ts = true.
Proof.
  apply unique_label_loop_spec. pose proof (room_le_length l ts). lia.
Qed.

(** * Creating a timer *)

Lemma startTimer_accepted st now l0 m :
  l0 ≠ EmptyString -> (0 < m)%Z ->
  ∃ k,
    startTimer (Some l0) (Some m) now st =
      updateViews now
        (set_timers
           (timers st ++ [mkTimer (l0 +:+ stars k) (next_handle st) (now + m * 60 * 1000)])
           (setInterval (StartTimerTick (l0 +:+ stars k) (now + m * 60 * 1000)) st).2) ∧
    ((l0 +:+ stars k) ∉ (label <$> timers st)) ∧
    ∀ j, j < k -> (l0 +:+ stars j) ∈ (label <$> timers st).
Proof.
  intros Hl Hm. unfold startTimer, falsy, validateInput.
  case_bool_decide; [done|].
  destruct (Z.leb_spec m 0) as [?|_]; [lia|].
  destruct (unique_label_loop_exits (timers st) l0) as (k & -> & Hfree & Hbelow).
  exists k. split_and!.
  - reflexivity.
  - by apply has_label_false.
  - intros j Hj. by apply has_label_true, Hbelow.
Qed.

Lemma append_star_neq (l : string) : l +:+ "*" ≠ l.
Proof.
  intros H. apply (f_equal String.length) in H.
  rewrite string_app_length in H. simpl in H. lia.
Qed.

(** Claim C4. A creation with a non-empty label and valid minutes stores a
    timer, registered under the next handle, whose label is the requested one
    followed by k marker characters, where k is the least number for which no
    active timer has that label (k = 0: the label as requested). In
    particular, from a state with no timers two creations with the same label
    leave two timers: the first created with the label itself, the second
    with the label and one marker. *)
Theorem startTimer_label_unique (st : State) (now : Z) (l0 : string) (m : Z) :
  l0 ≠ EmptyString -> (0 < m)%Z ->
  (∃ k,
     timers (startTimer (Some l0) (Some m) now st) =
       Array_sort by_endTime
         (timers st ++ [mkTimer (l0 +:+ stars k) (next_handle st) (now + m * 60 * 1000)]) ∧
     ((l0 +:+ stars k) ∉ (label <$> timers st)) ∧
     ∀ j, j < k -> (l0 +:+ stars j) ∈ (label <$> timers st)) /\
  (timers st = [] ->
   ∀ now2 m2, (0 < m2)%Z ->
     timers (startTimer (Some l0) (Some m2) now2 (startTimer (Some l0) (Some m) now st)) ≡ₚ
       [mkTimer l0 (next_handle st) (now + m * 60 * 1000);
        mkTimer (l0 +:+ "*") (S (next_handle st)) (now2 + m2 * 60 * 1000)]).
Proof.
  intros Hl Hm.
  destruct (startTimer_accepted st now l0 m Hl Hm) as (k & Hst & Hfree & Hbelow).
  split.
  { exists k. by rewrite Hst, updateViews_timers. }
  intros Hnil now2 m2 Hm2.
  assert (k = 0) as ->.
  { destruct k as [|k]; [done|]. specialize (Hbelow 0 ltac:(lia)).
    rewrite Hnil in Hbelow. by apply elem_of_nil in Hbelow. }
  rewrite string_app_nil_r, Hnil in Hst. rewrite app_nil_l in Hst.
  set (st1 := startTimer (Some l0) (Some m) now st) in *.
  assert (timers st1 = [mkTimer l0 (next_handle st) (now + m * 60 * 1000)]) as Hts1.
  { by rewrite Hst, updateViews_timers. }
  assert (next_handle st1 = S (next_handle st)) as Hnh1.
  { by rewrite Hst, updateViews_next_handle. }
  destruct (startTimer_accepted st1 now2 l0 m2 Hl Hm2) as (k2 & Hst2 & Hfree2 & Hbelow2).
  rewrite Hts1 in Hfree2, Hbelow2. simpl in Hfree2, Hbelow2.
  assert (k2 = 1) as ->.
  { destruct k2 as [|[|k2]]; [|done|].
    - rewrite string_app_nil_r in Hfree2. destruct Hfree2. left.
    - specialize (Hbelow2 1 ltac:(lia)).
      apply list_elem_of_singleton in Hbelow2. by apply append_star_neq in Hbelow2. }
  rewrite Hst2, updateViews_timers, sort_timers_Permutation. simpl.
  by rewrite Hts1, Hnh1.
Qed.

(** Two creations of Build from an empty controller. *)
Lemma startTimer_label_unique_Build :
  let st := constructor empty_store 0 0%Z in
  "Build" ≠ EmptyString /\ (0 < 1)%Z /\
  (∃ k,
     timers (startTimer (Some "Build") (Some 1%Z) 0%Z st) =
       Array_sort by_endTime
         (timers st ++ [mkTimer ("Build" +:+ stars k) (next_handle st) (0 + 1 * 60 * 1000)]) ∧
     (("Build" +:+ stars k) ∉ (label <$> timers st)) ∧
     ∀ j, j < k -> ("Build" +:+ stars j) ∈ (label <$> timers st)) /\
  timers st = [] /\ (0 < 2)%Z /\
  timers (startTimer (Some "Build") (Some 2%Z) 250%Z
            (startTimer (Some "Build") (Some 1%Z) 0%Z st)) ≡ₚ
    [mkTimer "Build" 0 60000%Z; mkTimer "Build*" 1 120250%Z].
Proof.
  intros st.
  assert ("Build" ≠ EmptyString) as Hl by discriminate.
  assert (0 < 1)%Z as Hm by lia.
  destruct (startTimer_label_unique st 0%Z "Build" 1%Z Hl Hm) as [Hk Htwice].
  split_and!; [done|done|exact Hk|reflexivity|lia|].
  apply (Htwice eq_refl 250%Z 2%Z). lia.
Defined.

Example Build_twice :
  map label
    (timers (run [(0%Z, StartTimer (Some "Build") (Some 1%Z));
                  (250%Z, StartTimer (Some "Build") (Some 1%Z))]
               (constructor empty_store 0 0%Z))) = ["Build"; "Build*"].
Proof. vm_compute. reflexivity. Qed.

(** * Requests that name nothing *)

Lemma find_label_None l ts :
  l ∉ label <$> ts -> find (λ t, bool_decide (label t = l)) ts = None.
Proof.
  induction ts as [|t ts IH]; [done|].
  rewrite fmap_cons, not_elem_of_cons. intros [Hne Hts]. simpl.
  rewrite bool_decide_eq_false_2 by done. by apply IH.
Qed.

Lemma find_label_Some l ts :
  l ∈ label <$> ts ->
  ∃ timer, find (λ t, bool_decide (label t = l)) ts = Some timer ∧
           timer ∈ ts ∧ label timer = l.
Proof.
  induction ts as [|t ts IH]; [by intros ?%elem_of_nil|].
  rewrite fmap_cons, elem_of_cons. intros Hin. simpl.
  case_bool_decide as Ht.
  - exists t. split_and!; [done|left|done].
  - destruct Hin as [->|Hin]; [done|].
    destruct (IH Hin) as (timer & -> & Hin' & Hl).
    exists timer. split_and!; [done|by right|done].
Qed.

(** Claim C5. Stopping a label that no active timer has changes nothing but
    the log, which receives one error message quoting the label: the timer
    list, the task list, the store, the interval registrations and the status
    bar are as before. The function returns a state on every input. *)
Theorem stopTimer_unknown_label (st : State) (now : Z) (l : string) :
  l ∉ label <$> timers st ->
  stopTimer l now st =
    emit (showErrorMessage
            ("No timer found with label " +:+ String dquote (l +:+ String dquote "."))) st /\
  timers (stopTimer l now st) = timers st /\
  tasks (stopTimer l now st) = tasks st /\
  globalState (stopTimer l now st) = globalState st /\
  intervals (stopTimer l now st) = intervals st /\
  log (stopTimer l now st) =
    log st ++ [showErrorMessage
                 ("No timer found with label " +:+ String dquote (l +:+ String dquote "."))].
Proof.
  intros Hl. unfold stopTimer. by rewrite find_label_None.
Qed.

Lemma stopTimer_unknown_label_Deploy :
  ("Deploy" ∉ label <$> timers (startTimer (Some "Build") (Some 5%Z) 0%Z
                                  (constructor empty_store 0 0%Z))) /\
  log (stopTimer "Deploy" 10%Z
         (startTimer (Some "Build") (Some 5%Z) 0%Z (constructor empty_store 0 0%Z))) =
    [showErrorMessage
       ("No timer found with label " +:+ String dquote ("Deploy" +:+ String dquote "."))] /\
  timers (stopTimer "Deploy" 10%Z
            (startTimer (Some "Build") (Some 5%Z) 0%Z (constructor empty_store 0 0%Z))) =
    timers (startTimer (Some "Build") (Some 5%Z) 0%Z (constructor empty_store 0 0%Z)).
Proof.
  assert ("Deploy" ∉ label <$> timers (startTimer (Some "Build") (Some 5%Z) 0%Z
                                         (constructor empty_store 0 0%Z))) as Hl.
  { vm_compute. intros [=]%list_elem_of_singleton. }
  destruct (stopTimer_unknown_label _ 10%Z _ Hl) as (_ & Hts & _ & _ & _ & Hlog).
  split_and!; [done| |done]. rewrite Hlog. vm_compute. reflexivity.
Defined.

(** Claim C8. With an index below zero or not below the number of tasks,
    editing, toggling and deleting return the state they were given: no
    list, no store entry and no status text changes and nothing is added to
    the log, so no message is shown. The same holds when the request comes
    from the panel. *)
Theorem task_index_out_of_range (st : State) (now : Z) (i : Z) (d : string) :
  (i < 0 \/ Z.of_nat (length (tasks st)) <= i)%Z ->
  editTask i d now st = st /\
  toggleTask i now st = st /\
  deleteTask i now st = st /\
  onDidReceiveMessage (msg_editTask i d) now st = st /\
  onDidReceiveMessage (msg_toggleTask i) now st = st /\
  onDidReceiveMessage (msg_deleteTask i) now st = st.
Proof.
  intros Hi.
  assert (in_range i st = false) as Hr.
  { unfold in_range. apply andb_false_iff. destruct Hi; [left|right]; lia. }
  unfold onDidReceiveMessage, editTask, toggleTask, deleteTask. rewrite Hr.
  by destruct (webviewView st).
Qed.

Lemma task_index_out_of_range_one_task :
  let st := addTask (Some "Write spec") 0%Z (constructor empty_store 0 0%Z) in
  (1 < 0 \/ Z.of_nat (length (tasks st)) <= 1)%Z /\
  editTask 1 "x" 5%Z st = st /\
  toggleTask 1 5%Z st = st /\
  deleteTask 1 5%Z st = st.
Proof.
  intros st.
  assert (1 < 0 \/ Z.of_nat (length (tasks st)) <= 1)%Z as Hi.
  { right. vm_compute. discriminate. }
  split; [exact Hi|].
  destruct (task_index_out_of_range st 5%Z 1%Z "x" Hi) as (He & Ht & Hd & _).
  split_and!; assumption.
Defined.

(** * Expiry *)

(** The callback [restoreTimers] registers changes nothing but its own
    registration, whatever the time. *)
Lemma restored_tick_silent st h e now :
  intervals st !! h = Some (RestoreTimersTick e) ->
  timers (tick h now st) = timers st ∧
  log (tick h now st) = log st ∧
  globalState (tick h now st) = globalState st ∧
  timerStatusBarItem_text (tick h now st) = timerStatusBarItem_text st.
Proof.
  intros Hh. unfold tick. rewrite Hh. by destruct (_ <=? _)%Z.
Qed.

(** Claim C1, on the code. Timer A is restored at time 0 from a snapshot in
    which it ends at 1000, and for comparison created at time 0 for one
    minute. Each is armed under handle 0. When the restored timer's callback
    fires at its endTime, only the registration goes away: A stays in the
    list, nothing is notified or shown, the status bar still reads as it did.
    When the created timer's callback fires at its endTime, A is notified,
    announced and removed, and the status bar goes back to the idle text. *)
Theorem restored_tick_skips_completion :
  let restored := constructor store_A 0 0%Z in
  let created := startTimer (Some "A") (Some 1%Z) 0%Z (constructor empty_store 0 0%Z) in
  timers restored = [mkTimer "A" 0 1000%Z] /\
  intervals restored !! 0 = Some (RestoreTimersTick 1000%Z) /\
  timers (tick 0 1000%Z restored) = [mkTimer "A" 0 1000%Z] /\
  log (tick 0 1000%Z restored) = [] /\
  intervals (tick 0 1000%Z restored) !! 0 = None /\
  timerStatusBarItem_text (tick 0 1000%Z restored) = timerStatusBarItem_text restored /\
  timers created = [mkTimer "A" 0 60000%Z] /\
  intervals created !! 0 = Some (StartTimerTick "A" 60000%Z) /\
  timers (tick 0 60000%Z created) = [] /\
  log (tick 0 60000%Z created) =
    [notifier_notify "Time's up!" "A timer has completed.";
     showInformationMessage "A timer has completed."] /\
  timerStatusBarItem_text (tick 0 60000%Z created) = "No active timers".
Proof. vm_compute. split_and!; reflexivity. Qed.

(** Operations that end in a view sync leave the store equal to the lists. *)
Lemma user_operations_sync st now :
  (∀ l0 m, l0 ≠ EmptyString -> (0 < m)%Z ->
           snapshot_in_sync (startTimer (Some l0) (Some m) now st)) ∧
  (∀ l, l ∈ label <$> timers st -> snapshot_in_sync (stopTimer l now st)) ∧
  snapshot_in_sync (clearTimers now st) ∧
  (∀ d, d ≠ EmptyString -> snapshot_in_sync (addTask (Some d) now st)) ∧
  (∀ i d, in_range i st = true -> snapshot_in_sync (editTask i d now st)) ∧
  (∀ i, in_range i st = true -> snapshot_in_sync (toggleTask i now st)) ∧
  (∀ i, in_range i st = true -> snapshot_in_sync (deleteTask i now st)).
Proof.
  split_and!.
  - intros l0 m Hl Hm.
    destruct (startTimer_accepted st now l0 m Hl Hm) as (k & -> & _).
    apply updateViews_in_sync.
  - intros l Hl. unfold stopTimer.
    destruct (find_label_Some l (timers st) Hl) as (timer & -> & _).
    apply updateViews_in_sync.
  - apply updateViews_in_sync.
  - intros d Hd. unfold addTask, falsy. case_bool_decide; [done|].
    apply updateViews_in_sync.
  - intros i d Hi. unfold editTask. rewrite Hi. apply updateViews_in_sync.
  - intros i Hi. unfold toggleTask. rewrite Hi. apply updateViews_in_sync.
  - intros i Hi. unfold deleteTask. rewrite Hi. apply updateViews_in_sync.
Qed.

(** Claim C2, on the code. Timer A is created at time 0 for one minute and
    its callback fires at its endTime. The timer leaves the in-memory list,
    but the store is not written: its activeTimers entry still holds A, so
    it no longer equals the in-memory list. *)
Theorem expiry_leaves_snapshot_stale :
  let created := startTimer (Some "A") (Some 1%Z) 0%Z (constructor empty_store 0 0%Z) in
  let expired := tick 0 60000%Z created in
  snapshot_in_sync created /\
  timers expired = [] /\
  gs_activeTimers (globalState expired) = Some [mkStoredTimer "A" 60000%Z] /\
  globalState expired = globalState created /\
  ~ snapshot_in_sync expired.
Proof.
  vm_compute. split_and!; try reflexivity.
  intros [[=] _].
Qed.

(** * Well-formed states *)

Section ListFacts.
Context {A B : Type} (f : A -> B).

Lemma NoDup_fmap_filter (P : A -> Prop) `{!∀ x, Decision (P x)} (l : list A) :
  NoDup (f <$> l) -> NoDup (f <$> filter P l).
Proof.
  induction l as [|x l IH]; [done|].
  rewrite fmap_cons, NoDup_cons, filter_cons. intros [Hx Hl].
  case_decide; [|by apply IH].
  rewrite fmap_cons, NoDup_cons. split; [|by apply IH].
  intros (y & Hxy & [_ Hy]%list_elem_of_filter)%list_elem_of_fmap.
  apply Hx, list_elem_of_fmap. eauto.
Qed.

Lemma NoDup_fmap_eq (l : list A) x y :
  NoDup (f <$> l) -> x ∈ l -> y ∈ l -> f x = f y -> x = y.
Proof.
  induction l as [|z l IH]; [by intros _ ?%elem_of_nil|].
  rewrite fmap_cons, NoDup_cons. intros [Hz Hl].
  rewrite !elem_of_cons. intros [->|Hx] [->|Hy] Hxy; [done| | |by apply IH].
  - destruct Hz. rewrite Hxy. by apply list_elem_of_fmap_2.
  - destruct Hz. rewrite <- Hxy. by apply list_elem_of_fmap_2.
Qed.

Lemma filter_key_absent `{!EqDecision B} (l : list A) k :
  k ∉ f <$> l -> filter (λ y, f y ≠ k) l = l.
Proof.
  induction l as [|z l IH]; [done|].
  rewrite fmap_cons, not_elem_of_cons, filter_cons. intros [Hk Hl].
  rewrite decide_True by done. by rewrite IH.
Qed.

(** Filtering out the one element with a given key removes that element
    and nothing else. *)
Lemma filter_key_removes_one `{!EqDecision B} (l : list A) x :
  NoDup (f <$> l) -> x ∈ l -> l ≡ₚ x :: filter (λ y, f y ≠ f x) l.
Proof.
  induction l as [|z l IH]; [by intros _ ?%elem_of_nil|].
  rewrite fmap_cons, NoDup_cons, elem_of_cons, filter_cons.
  intros [Hz Hl] [->|Hx].
  - rewrite decide_False by naive_solver. by rewrite filter_key_absent.
  - rewrite decide_True.
    + rewrite (IH Hl Hx) at 1. apply Permutation_swap.
    + intros Hzx. apply Hz. rewrite Hzx. by apply list_elem_of_fmap_2.
Qed.
End ListFacts.

Lemma consistent_ext st st' :
  timers st' = timers st ->
  next_handle st' = next_handle st ->
  intervals st' = intervals st ->
  gs_activeTimers (globalState st') = gs_activeTimers (globalState st) ->
  consistent st -> consistent st'.
Proof.
  intros Ht Hn Hi Hg [H1 [H2 H3 H4] H5].
  split; [|split|]; rewrite ?Ht, ?Hn, ?Hi, ?Hg; done.
Qed.

Lemma consistent_updateStatusBar now st :
  consistent st -> consistent (updateStatusBar now st).
Proof.
  intros [H1 [H2 H3 H4] H5].
  split; [|split|]; rewrite ?updateStatusBar_timers, ?updateStatusBar_next_handle,
    ?updateStatusBar_intervals, ?updateStatusBar_globalState; try done.
  - by rewrite sort_timers_Permutation.
  - by rewrite sort_timers_Permutation.
  - by rewrite sort_timers_Permutation.
  - intros h cb Hh. destruct (H4 h cb Hh) as (t & Ht & Hr).
    exists t. by rewrite sort_timers_Permutation.
Qed.

Lemma well_formed_updateStatusBar now st :
  consistent st -> well_formed (updateStatusBar now st).
Proof.
  split; [by apply consistent_updateStatusBar|].
  rewrite updateStatusBar_timers. apply sort_ascending.
Qed.

Lemma stored_label_serialize ts : stored_label <$> map serialize_timer ts = label <$> ts.
Proof. induction ts as [|t ts IH]; [done|]. simpl. by f_equal. Qed.

Lemma well_formed_updateViews now st :
  consistent st -> well_formed (updateViews now st).
Proof.
  intros [H1 [H2 H3 H4] H5]. split.
  - split; [|split|]; rewrite ?updateViews_timers, ?updateViews_next_handle,
      ?updateViews_intervals, ?updateViews_globalState; simpl.
    + by rewrite sort_timers_Permutation.
    + by rewrite sort_timers_Permutation.
    + by rewrite sort_timers_Permutation.
    + intros h cb Hh. destruct (H4 h cb Hh) as (t & Ht & Hr).
      exists t. by rewrite sort_timers_Permutation.
    + by rewrite stored_label_serialize, sort_timers_Permutation.
  - rewrite updateViews_timers. apply sort_ascending.
Qed.

(** In a well-formed state a view sync rearranges nothing. *)
Lemma well_formed_sync_keeps_order now st :
  well_formed st -> timers (updateViews now st) = timers st.
Proof. intros [_ Ha]. rewrite updateViews_timers. by apply sort_ascending_id. Qed.

(** Removing the timers that carry the label of [t0] and clearing the
    interval of [t0], as [stopTimer] and the expiry branch do. *)
Lemma consistent_remove st st' t0 :
  consistent st -> t0 ∈ timers st ->
  timers st' = filter (λ t, label t ≠ label t0) (timers st) ->
  intervals st' = delete (timerInterval t0) (intervals st) ->
  next_handle st' = next_handle st ->
  gs_activeTimers (globalState st') = gs_activeTimers (globalState st) ->
  consistent st'.
Proof.
  intros [H1 [H2 H3 H4] H5] Hin Ht Hi Hn Hg.
  split; [|split|]; rewrite ?Ht, ?Hn, ?Hi, ?Hg; try done.
  - by apply NoDup_fmap_filter.
  - by apply NoDup_fmap_filter.
  - apply Forall_forall. intros t [_ Hmem]%list_elem_of_filter.
    by eapply Forall_forall in H3.
  - intros h cb [Hne Hh]%lookup_delete_Some.
    destruct (H4 h cb Hh) as (t & Hmem & Hth & Hown).
    exists t. split_and!; [|done..].
    apply list_elem_of_filter. split; [|done].
    intros Heq. apply Hne. rewrite <- Hth. f_equal.
    symmetry. by apply (NoDup_fmap_eq label (timers st)).
Qed.

(** Registering a callback and pushing the timer that owns it. *)
Lemma handles_ok_add st l e cb :
  handles_ok st -> owns (mkTimer l (next_handle st) e) cb ->
  handles_ok (set_timers (timers st ++ [mkTimer l (next_handle st) e])
                (setInterval cb st).2).
Proof.
  intros [H2 H3 H4] Hown. split; simpl.
  - rewrite fmap_app. apply NoDup_app. split_and!; [done| |apply NoDup_singleton].
    intros h (t & -> & Hmem)%list_elem_of_fmap Heq%list_elem_of_singleton.
    eapply Forall_forall in H3; [|done]. simpl in H3, Heq. lia.
  - apply Forall_app. split.
    + eapply Forall_impl; [done|]. simpl. intros; lia.
    + apply Forall_singleton. simpl. lia.
  - intros h cb' [[<- <-]|[Hne Hh]]%lookup_insert_Some.
    + exists (mkTimer l (next_handle st) e). split_and!; [|reflexivity|done].
      apply elem_of_app. right. by apply list_elem_of_singleton.
    + destruct (H4 h cb' Hh) as (t & Hmem & Hr).
      exists t. split; [|done]. apply elem_of_app. by left.
Qed.

Lemma handles_ok_restore_one now st e :
  handles_ok st -> handles_ok (restore_one now st e).
Proof.
  intros Hok. unfold restore_one.
  destruct (_ <=? _)%Z.
  - by destruct Hok.
  - apply (handles_ok_add st); [done|]. by right.
Qed.

Lemma handles_ok_foldl_restore_one now stored st :
  handles_ok st -> handles_ok (foldl (restore_one now) st stored).
Proof.
  revert st. induction stored as [|e stored IH]; intros st Hok; [done|].
  simpl. by apply IH, handles_ok_restore_one.
Qed.

Lemma label_serialize ts : label <$> ts = stored_label <$> map serialize_timer ts.
Proof. by rewrite stored_label_serialize. Qed.

Lemma constructor_unfold context h0 now :
  constructor context h0 now =
  restoreTasks
    (restoreTimers now
       (mkState [] [] false "No active timers" "No tasks"
          (mkMemento (Some (default [] (gs_activeTimers context)))
                     (Some (default [] (gs_tasks context))))
          ∅ h0 [])).
Proof. destruct context as [[a|] [t|]]; reflexivity. Qed.

Lemma well_formed_constructor context h0 now :
  NoDup (stored_label <$> default [] (gs_activeTimers context)) ->
  well_formed (constructor context h0 now).
Proof.
  intros Hnd. rewrite constructor_unfold.
  set (st0 := mkState _ _ _ _ _ _ _ _ _).
  assert (well_formed (restoreTimers now st0)) as [Hc Ha].
  { unfold restoreTimers. apply well_formed_updateStatusBar.
    split.
    - rewrite label_serialize, foldl_restore_one_serialize. simpl.
      by apply NoDup_fmap_filter.
    - apply handles_ok_foldl_restore_one. split; simpl.
      + apply NoDup_nil_2.
      + constructor.
      + intros h cb Hh. by rewrite lookup_empty in Hh.
    - by rewrite foldl_restore_one_globalState. }
  split; [|done]. by eapply consistent_ext; [..|exact Hc].
Qed.

Lemma foldl_clearInterval_frame ts st :
  let st' := foldl (λ s timer, clearInterval (timerInterval timer) s) st ts in
  timers st' = timers st ∧ tasks st' = tasks st ∧ webviewView st' = webviewView st ∧
  globalState st' = globalState st ∧ next_handle st' = next_handle st ∧
  log st' = log st ∧
  ∀ h, intervals st' !! h =
       if decide (h ∈ timerInterval <$> ts) then None else intervals st !! h.
Proof.
  revert st. induction ts as [|t ts IH]; intros st; simpl.
  - split_and!; done.
  - destruct (IH (clearInterval (timerInterval t) st)) as (-> & -> & -> & -> & -> & -> & Hi).
    split_and!; try done. intros h. rewrite Hi. simpl.
    destruct (decide (h = timerInterval t)) as [->|Hne].
    + rewrite lookup_delete_eq. rewrite (decide_True (P := _ ∈ _ :: _)) by left.
      by case_decide.
    + rewrite lookup_delete_ne by done.
      repeat case_decide; try done.
      * exfalso. match goal with H : ¬ _ |- _ => apply H end. by right.
      * exfalso. match goal with H : _ ∈ _ :: _ |- _ =>
          apply elem_of_cons in H as [?|?] end; done.
Qed.

Lemma well_formed_ext st st' :
  timers st' = timers st ->
  next_handle st' = next_handle st ->
  intervals st' = intervals st ->
  gs_activeTimers (globalState st') = gs_activeTimers (globalState st) ->
  well_formed st -> well_formed st'.
Proof.
  intros Ht Hn Hi Hg [Hc Ha]. split; [by eapply consistent_ext|]. by rewrite Ht.
Qed.

Lemma well_formed_set_tasks_sync now v st :
  well_formed st -> well_formed (updateViews now (set_tasks v st)).
Proof.
  intros [Hc _]. apply well_formed_updateViews. by eapply consistent_ext; [..|exact Hc].
Qed.

Lemma well_formed_startTimer lbl minutes now st :
  well_formed st -> well_formed (startTimer lbl minutes now st).
Proof.
  intros Hwf. unfold startTimer.
  destruct lbl as [l0|]; [|done]. destruct minutes as [m|]; [|done].
  destruct (falsy _); [done|]. destruct (validateInput m); [done|].
  destruct (unique_label_loop_exits (timers st) l0) as (k & -> & Hfree & _).
  apply has_label_false in Hfree. destruct Hwf as [[H1 H2 H5] _].
  apply well_formed_updateViews. split.
  - simpl. rewrite fmap_app. apply NoDup_app.
    split_and!; [done| |apply NoDup_singleton].
    intros l Hl ->%list_elem_of_singleton. done.
  - apply (handles_ok_add st); [done|]. by left.
  - done.
Qed.

Lemma find_label_inv l ts timer :
  find (λ t, bool_decide (label t = l)) ts = Some timer ->
  timer ∈ ts ∧ label timer = l.
Proof.
  intros [Hin Hl]%find_some. split; [by apply list_elem_of_In|].
  by apply bool_decide_eq_true in Hl.
Qed.

Lemma well_formed_stopTimer l now st :
  well_formed st -> well_formed (stopTimer l now st).
Proof.
  intros Hwf. unfold stopTimer.
  destruct (find _ (timers st)) as [timer|] eqn:Hfind.
  - apply find_label_inv in Hfind as [Hin <-].
    apply well_formed_updateViews.
    by apply (consistent_remove st _ timer); [apply Hwf|..].
  - by eapply well_formed_ext; [..|exact Hwf].
Qed.

Lemma well_formed_clearTimers now st :
  well_formed st -> well_formed (clearTimers now st).
Proof.
  intros [[H1 [H2 H3 H4] H5] _]. unfold clearTimers.
  destruct (foldl_clearInterval_frame (timers st) st) as (Ht & _ & _ & Hg & Hn & _ & Hi).
  apply well_formed_updateViews. split; [|split|]; simpl.
  - apply NoDup_nil_2.
  - apply NoDup_nil_2.
  - constructor.
  - intros h cb Hh. rewrite Hi in Hh. case_decide as Hmem; [done|].
    destruct (H4 h cb Hh) as (t & Hin & <- & _).
    destruct Hmem. by apply list_elem_of_fmap_2.
  - apply NoDup_nil_2.
Qed.

Lemma well_formed_tick h now st :
  well_formed st -> well_formed (tick h now st).
Proof.
  intros Hwf. unfold tick.
  destruct (intervals st !! h) as [[l e|e]|] eqn:Hh; [| |done].
  - destruct (_ <=? _)%Z; [|by apply well_formed_updateStatusBar, Hwf].
    destruct Hwf as [Hc _].
    destruct (registrations_owned _ (consistent_handles _ Hc) h _ Hh)
      as (t0 & Hin & <- & [[= -> ->]|[=]]).
    apply well_formed_updateStatusBar.
    by apply (consistent_remove st _ t0).
  - destruct (_ <=? _)%Z; [|done].
    destruct Hwf as [[H1 [H2 H3 H4] H5] Ha].
    split; [split; [|split|]|]; simpl; try done.
    intros h' cb [_ Hh']%lookup_delete_Some. by apply H4.
Qed.

Lemma well_formed_task_operations now st :
  well_formed st ->
  (∀ task, well_formed (addTask task now st)) ∧
  (∀ i d, well_formed (editTask i d now st)) ∧
  (∀ i, well_formed (toggleTask i now st)) ∧
  (∀ i, well_formed (deleteTask i now st)) ∧
  well_formed (sendDataToWebview now st).
Proof.
  intros Hwf. split_and!.
  - intros [d|]; [|done]. unfold addTask. destruct (falsy _); [done|].
    by apply well_formed_set_tasks_sync.
  - intros i d. unfold editTask. destruct (in_range _ _); [|done].
    by apply well_formed_set_tasks_sync.
  - intros i. unfold toggleTask. destruct (in_range _ _); [|done].
    by apply well_formed_set_tasks_sync.
  - intros i. unfold deleteTask. destruct (in_range _ _); [|done].
    by apply well_formed_set_tasks_sync.
  - unfold sendDataToWebview. destruct (webviewView st); [|done].
    by eapply well_formed_ext; [..|exact Hwf].
Qed.

Lemma well_formed_step now ev st :
  well_formed st -> well_formed (step now ev st).
Proof.
  intros Hwf.
  destruct (well_formed_task_operations now st Hwf) as (Ha & He & Ht & Hd & Hs).
  destruct ev as [l m|l| |h|task|i d|i|i| | |message|]; simpl.
  - by apply well_formed_startTimer.
  - by apply well_formed_stopTimer.
  - by apply well_formed_clearTimers.
  - by apply well_formed_tick.
  - apply Ha.
  - apply He.
  - apply Ht.
  - apply Hd.
  - unfold showTaskManager. destruct (webviewView st); [|done].
    by eapply well_formed_ext; [..|exact Hwf].
  - by eapply well_formed_ext; [..|exact Hwf].
  - unfold onDidReceiveMessage. destruct (webviewView st); [|done].
    by destruct message.
  - apply well_formed_constructor. apply Hwf.
Qed.

Lemma reachable_well_formed st : reachable st -> well_formed st.
Proof.
  induction 1 as [h0 now|st now ev _ IH].
  - apply well_formed_constructor. simpl. apply NoDup_nil_2.
  - by apply well_formed_step.
Qed.

(** In a state of a run the list is in order already, so what is restored
    from a sync of it are the unexpired timers of the list as it was. *)
Lemma reachable_round_trip st now t h0 :
  reachable st ->
  timers (updateViews now st) = timers st ∧
  map serialize_timer (timers (constructor (globalState (updateViews now st)) h0 t)) =
    filter (not_expired t) (map serialize_timer (timers st)).
Proof.
  intros Hwf%reachable_well_formed.
  split; [by apply well_formed_sync_keeps_order|].
  rewrite constructor_timers, updateViews_globalState. simpl.
  rewrite sort_ascending_id by apply Hwf.
  apply restoreTimers_of_ascending; [done|].
  apply ascending_serialize, Hwf.
Qed.

(** * The idle text along a run *)

Lemma sendDataToWebview_timer_text now st :
  timerStatusBarItem_text (sendDataToWebview now st) = timerStatusBarItem_text st.
Proof. unfold sendDataToWebview. by destruct (webviewView st). Qed.

Lemma updateViews_timer_text now st :
  timerStatusBarItem_text (updateViews now st) =
  timerStatusBarItem_text (updateStatusBar now st).
Proof. unfold updateViews. simpl. by rewrite sendDataToWebview_timer_text. Qed.

Lemma idle_text_ext st st' :
  timers st' = timers st ->
  timerStatusBarItem_text st' = timerStatusBarItem_text st ->
  idle_text_iff_no_timers st -> idle_text_iff_no_timers st'.
Proof. unfold idle_text_iff_no_timers. by intros -> ->. Qed.

Lemma idle_text_updateStatusBar now st :
  idle_text_iff_no_timers (updateStatusBar now st).
Proof.
  unfold idle_text_iff_no_timers.
  rewrite updateStatusBar_timer_text, updateStatusBar_timers.
  destruct (timers st) as [|t0 ts0] eqn:Hts; [done|].
  destruct (Array_sort by_endTime (t0 :: ts0)) as [|nextTimer rest] eqn:Hs.
  { by apply sort_timers_nil_inv in Hs. }
  split; [|done]. intros H. by apply timer_text_not_idle in H.
Qed.

Lemma idle_text_updateViews now st : idle_text_iff_no_timers (updateViews now st).
Proof.
  eapply idle_text_ext; [| |apply (idle_text_updateStatusBar now st)].
  - by rewrite updateViews_timers, updateStatusBar_timers.
  - apply updateViews_timer_text.
Qed.

Lemma idle_text_step now ev st :
  idle_text_iff_no_timers st -> idle_text_iff_no_timers (step now ev st).
Proof.
  intros Hst.
  destruct ev as [l m|l| |h|task|i d|i|i| | |message|]; simpl.
  - unfold startTimer.
    destruct l as [l0|]; [|done]. destruct m as [m|]; [|done].
    destruct (falsy _); [done|]. destruct (validateInput m); [done|].
    destruct (unique_label _ _); [|done]. apply idle_text_updateViews.
  - unfold stopTimer. destruct (find _ _); [apply idle_text_updateViews|done].
  - apply idle_text_updateViews.
  - unfold tick. destruct (intervals st !! h) as [[l e|e]|]; [| |done].
    + destruct (_ <=? _)%Z; apply idle_text_updateStatusBar.
    + by destruct (_ <=? _)%Z.
  - unfold addTask. destruct task; [|done].
    destruct (falsy _); [done|apply idle_text_updateViews].
  - unfold editTask. destruct (in_range _ _); [apply idle_text_updateViews|done].
  - unfold toggleTask. destruct (in_range _ _); [apply idle_text_updateViews|done].
  - unfold deleteTask. destruct (in_range _ _); [apply idle_text_updateViews|done].
  - unfold showTaskManager. by destruct (webviewView st).
  - done.
  - unfold onDidReceiveMessage, sendDataToWebview, editTask, toggleTask, deleteTask.
    destruct (webviewView st); [|done].
    destruct message; [done|destruct (in_range _ _); [apply idle_text_updateViews|done]..].
  - rewrite constructor_unfold. unfold restoreTasks, restoreTimers.
    eapply idle_text_ext; [reflexivity..|]. apply idle_text_updateStatusBar.
Qed.

(** In every state of a run the timer item reads "No active timers" exactly
    when the timer list is empty. *)
Lemma reachable_idle_text st : reachable st -> idle_text_iff_no_timers st.
Proof.
  induction 1 as [h0 now|st now ev _ IH]; [|by apply idle_text_step].
  rewrite constructor_unfold. unfold restoreTasks, restoreTimers.
  eapply idle_text_ext; [reflexivity..|]. apply idle_text_updateStatusBar.
Qed.

(** * Retired handles *)

Lemma retired_frame h st st' :
  next_handle st' = next_handle st -> intervals st' = intervals st ->
  retired h st -> retired h st'.
Proof. unfold retired. by intros -> ->. Qed.

Lemma retired_updateStatusBar h now st :
  retired h st -> retired h (updateStatusBar now st).
Proof.
  apply retired_frame; [apply updateStatusBar_next_handle|apply updateStatusBar_intervals].
Qed.

Lemma retired_updateViews h now st :
  retired h st -> retired h (updateViews now st).
Proof.
  apply retired_frame; [apply updateViews_next_handle|apply updateViews_intervals].
Qed.

Lemma retired_setInterval h cb st : retired h st -> retired h (setInterval cb st).2.
Proof.
  intros [Hlt Hnone]. split; simpl; [lia|].
  rewrite lookup_insert_ne by lia. done.
Qed.

Lemma retired_clearInterval h h' st : retired h st -> retired h (clearInterval h' st).
Proof.
  intros [Hlt Hnone]. split; simpl; [done|].
  apply lookup_delete_None. by right.
Qed.

Lemma retired_restore_one h now st e : retired h st -> retired h (restore_one now st e).
Proof.
  intros Hr. unfold restore_one. destruct (_ <=? _)%Z; [done|].
  by apply (retired_setInterval h (RestoreTimersTick (stored_endTime e))) in Hr.
Qed.

Lemma retired_foldl_restore_one h now stored st :
  retired h st -> retired h (foldl (restore_one now) st stored).
Proof.
  revert st. induction stored as [|e stored IH]; intros st Hr; [done|].
  simpl. by apply IH, retired_restore_one.
Qed.

Lemma retired_constructor h context h0 now : h < h0 -> retired h (constructor context h0 now).
Proof.
  intros Hlt. rewrite constructor_unfold. unfold restoreTasks, restoreTimers.
  eapply retired_frame; [reflexivity..|].
  apply retired_updateStatusBar, retired_foldl_restore_one.
  split; [done|]. apply lookup_empty.
Qed.

Lemma retired_startTimer h lbl minutes now st :
  retired h st -> retired h (startTimer lbl minutes now st).
Proof.
  intros Hr. unfold startTimer.
  destruct lbl as [l0|]; [|done]. destruct minutes as [m|]; [|done].
  destruct (falsy _); [done|]. destruct (validateInput m); [done|].
  destruct (unique_label _ _) as [l|]; [|done].
  apply retired_updateViews.
  by apply (retired_setInterval h (StartTimerTick l (now + m * 60 * 1000))) in Hr.
Qed.

Lemma retired_stopTimer h l now st : retired h st -> retired h (stopTimer l now st).
Proof.
  intros Hr. unfold stopTimer. destruct (find _ _) as [timer|]; [|done].
  apply retired_updateViews.
  by apply (retired_clearInterval h (timerInterval timer)) in Hr.
Qed.

Lemma retired_clearTimers h now st : retired h st -> retired h (clearTimers now st).
Proof.
  intros [Hlt Hnone]. unfold clearTimers.
  destruct (foldl_clearInterval_frame (timers st) st) as (_ & _ & _ & _ & Hn & _ & Hi).
  apply retired_updateViews. split; simpl; [by rewrite Hn|].
  rewrite Hi. by case_decide.
Qed.

Lemma retired_tick h h' now st : retired h st -> retired h (tick h' now st).
Proof.
  intros Hr. unfold tick.
  destruct (intervals st !! h') as [[l e|e]|]; [| |done].
  - destruct (_ <=? _)%Z; apply retired_updateStatusBar; [|done].
    by apply (retired_clearInterval h h') in Hr.
  - destruct (_ <=? _)%Z; [|done]. by apply retired_clearInterval.
Qed.

Lemma retired_step h now ev st : retired h st -> retired h (step now ev st).
Proof.
  intros Hr.
  assert (∀ v, retired h (updateViews now (set_tasks v st))) as Htasks.
  { intros v. by apply retired_updateViews. }
  destruct ev as [l m|l| |h'|task|i d|i|i| | |message|]; simpl.
  - by apply retired_startTimer.
  - by apply retired_stopTimer.
  - by apply retired_clearTimers.
  - by apply retired_tick.
  - unfold addTask. destruct task; [|done]. by destruct (falsy _).
  - unfold editTask. by destruct (in_range _ _).
  - unfold toggleTask. by destruct (in_range _ _).
  - unfold deleteTask. by destruct (in_range _ _).
  - unfold showTaskManager. by destruct (webviewView st).
  - done.
  - unfold onDidReceiveMessage, sendDataToWebview, editTask, toggleTask, deleteTask.
    destruct (webviewView st); [|done].
    destruct message; [done|by destruct (in_range _ _)..].
  - apply retired_constructor, Hr.
Qed.

Lemma retired_run h trace st : retired h st -> retired h (run trace st).
Proof.
  revert st. induction trace as [|[now ev] trace IH]; intros st Hr; [done|].
  simpl. by apply IH, retired_step.
Qed.

(** The callback of a retired handle cannot fire. *)
Lemma retired_tick_noop h now st : retired h st -> tick h now st = st.
Proof. intros [_ Hnone]. unfold tick. by rewrite Hnone. Qed.

(** Claim C6. In a state of a run, when stopping a label that is active, or
    clearing all timers, has returned, the handle of every timer that left
    the list is no longer registered; it stays unregistered through every
    later sequence of events (restarts included), and firing it is therefore
    not possible: a tick under that handle finds no callback and does
    nothing. *)
Theorem removed_timer_never_ticks (st : State) :
  reachable st ->
  (∀ l now t,
     l ∈ label <$> timers st -> t ∈ timers st -> t ∉ timers (stopTimer l now st) ->
     ∀ trace now',
       intervals (run trace (stopTimer l now st)) !! timerInterval t = None ∧
       tick (timerInterval t) now' (run trace (stopTimer l now st)) =
         run trace (stopTimer l now st)) /\
  (∀ now t,
     t ∈ timers st ->
     timers (clearTimers now st) = [] ∧
     ∀ trace now',
       intervals (run trace (clearTimers now st)) !! timerInterval t = None ∧
       tick (timerInterval t) now' (run trace (clearTimers now st)) =
         run trace (clearTimers now st)).
Proof.
  intros [[H1 [H2 H3 H4] H5] Ha]%reachable_well_formed. split.
  - intros l now t Hl Ht Hgone trace now'.
    assert (retired (timerInterval t) (stopTimer l now st)) as Hr.
    { unfold stopTimer in *.
      destruct (find_label_Some l (timers st) Hl) as (timer & Hfind & Hin & Hlabel).
      rewrite Hfind in *.
      rewrite updateViews_timers, sort_timers_Permutation in Hgone. simpl in Hgone.
      assert (label t = l) as Htl.
      { destruct (decide (label t = l)) as [|Hne]; [done|].
        destruct Hgone. by apply list_elem_of_filter. }
      assert (t = timer) as ->.
      { apply (NoDup_fmap_eq label (timers st)); congruence. }
      apply retired_updateViews. split; simpl.
      - by eapply Forall_forall in H3.
      - apply lookup_delete_eq. }
    apply (retired_run _ trace) in Hr.
    split; [apply Hr|by apply retired_tick_noop].
  - intros now t Ht.
    assert (retired (timerInterval t) (clearTimers now st)) as Hr.
    { unfold clearTimers.
      destruct (foldl_clearInterval_frame (timers st) st) as (_ & _ & _ & _ & Hn & _ & Hi).
      apply retired_updateViews. split; simpl.
      - rewrite Hn. by eapply Forall_forall in H3.
      - rewrite Hi, decide_True; [done|]. by apply list_elem_of_fmap_2. }
    split.
    + unfold clearTimers. by rewrite updateViews_timers.
    + intros trace now'. apply (retired_run _ trace) in Hr.
      split; [apply Hr|by apply retired_tick_noop].
Qed.

Lemma reachable_run trace st : reachable st -> reachable (run trace st).
Proof.
  revert st. induction trace as [|[now ev] trace IH]; intros st Hr; [done|].
  simpl. by apply IH, reachable_step.
Qed.

Lemma removed_timer_never_ticks_Build :
  reachable one_timer /\
  (∀ trace now',
     intervals (run trace (stopTimer "Build" 10%Z one_timer)) !! 0 = None ∧
     tick 0 now' (run trace (stopTimer "Build" 10%Z one_timer)) =
       run trace (stopTimer "Build" 10%Z one_timer)) /\
  (∀ trace now',
     intervals (run trace (clearTimers 10%Z one_timer)) !! 0 = None ∧
     tick 0 now' (run trace (clearTimers 10%Z one_timer)) =
       run trace (clearTimers 10%Z one_timer)).
Proof.
  assert (reachable one_timer) as Hr by apply reachable_run, reachable_activate.
  destruct (removed_timer_never_ticks one_timer Hr) as [Hstop Hclear].
  assert (mkTimer "Build" 0 300000%Z ∈ timers one_timer) as Hin.
  { vm_compute. left. }
  split_and!; [done| |].
  - apply (Hstop "Build" 10%Z (mkTimer "Build" 0 300000%Z)); [|done|].
    + apply has_label_true. vm_compute. reflexivity.
    + vm_compute. apply not_elem_of_nil.
  - apply (Hclear 10%Z (mkTimer "Build" 0 300000%Z) Hin).
Defined.

(** Claim C10. In every state of a run that starts from an empty store (and
    may create, stop, clear, tick and restart from the store it wrote), no
    two active timers have the same label. Hence stopping an active label,
    and the expiry of a created timer, which both filter the list by label,
    take exactly one timer out of it: the list before is that timer together
    with the list after. *)
Theorem active_labels_distinct (st : State) :
  reachable st ->
  NoDup (label <$> timers st) /\
  (∀ l now,
     l ∈ label <$> timers st ->
     ∃ t, t ∈ timers st ∧ label t = l ∧
          timers st ≡ₚ t :: timers (stopTimer l now st)) /\
  (∀ h l e now,
     intervals st !! h = Some (StartTimerTick l e) -> (e - now <= 0)%Z ->
     ∃ t, t ∈ timers st ∧ label t = l ∧ timerInterval t = h ∧
          timers st ≡ₚ t :: timers (tick h now st)).
Proof.
  intros [[H1 [H2 H3 H4] H5] Ha]%reachable_well_formed. split_and!; [done| |].
  - intros l now Hl. unfold stopTimer.
    destruct (find_label_Some l (timers st) Hl) as (timer & -> & Hin & <-).
    exists timer. split_and!; [done..|].
    rewrite updateViews_timers, sort_timers_Permutation. simpl.
    by apply (filter_key_removes_one label).
  - intros h l e now Hh Hexp. unfold tick. rewrite Hh.
    destruct (Z.leb_spec (e - now) 0) as [_|?]; [|lia].
    destruct (H4 h _ Hh) as (t0 & Hin & <- & [[= -> ->]|[=]]).
    exists t0. split_and!; [done..|].
    rewrite updateStatusBar_timers, sort_timers_Permutation. simpl.
    by apply (filter_key_removes_one label).
Qed.

Lemma active_labels_distinct_two_timers :
  reachable two_timers /\
  NoDup (label <$> timers two_timers) /\
  (∃ t, t ∈ timers two_timers ∧ label t = "Build" ∧
        timers two_timers ≡ₚ t :: timers (stopTimer "Build" 10%Z two_timers)) /\
  intervals two_timers !! 1 = Some (StartTimerTick "Deploy" 60000%Z) /\
  (60000 - 60000 <= 0)%Z /\
  (∃ t, t ∈ timers two_timers ∧ label t = "Deploy" ∧ timerInterval t = 1 ∧
        timers two_timers ≡ₚ t :: timers (tick 1 60000%Z two_timers)).
Proof.
  assert (reachable two_timers) as Hr by apply reachable_run, reachable_activate.
  destruct (active_labels_distinct two_timers Hr) as (Hnd & Hstop & Htick).
  assert (intervals two_timers !! 1 = Some (StartTimerTick "Deploy" 60000%Z)) as Hh.
  { vm_compute. reflexivity. }
  split_and!; [done|done| |done|lia|].
  - apply Hstop. apply has_label_true. vm_compute. reflexivity.
  - apply (Htick 1 "Deploy" 60000%Z 60000%Z Hh). lia.
Defined.

(** * The task list *)

Lemma updateStatusBar_task_text now st :
  taskStatusBarItem_text (updateStatusBar now st) = task_text (tasks st).
Proof. status_bar_cases st. Qed.

Lemma Number_toString_nat_head (n : nat) :
  ∃ c s, Number_toString (Z.of_nat n) = String c s ∧ (48 <= nat_of_ascii c <= 57)%nat.
Proof.
  destruct n as [|n].
  - exists "0"%char, EmptyString. split; [reflexivity|cbv; lia].
  - change (Z.of_nat (S n)) with (Z.pos (Pos.of_succ_nat n)).
    apply Number_toString_pos_head.
Qed.

Lemma in_range_true i st :
  (0 <= i < Z.of_nat (length (tasks st)))%Z -> in_range i st = true.
Proof. intros Hi. unfold in_range. apply andb_true_iff. lia. Qed.

(** X1. The task item of the status bar reads "No tasks" exactly when the
    task list is empty; otherwise it reads the number of completed tasks, a
    slash, the number of tasks and " tasks completed", and the first number
    is at most the second. *)
Theorem task_status_bar_text (now : Z) (st : State) :
  (taskStatusBarItem_text (updateStatusBar now st) = "No tasks" <-> tasks st = []) /\
  match tasks st with
  | [] => True
  | _ :: _ =>
      taskStatusBarItem_text (updateStatusBar now st) =
        Number_toString (Z.of_nat (completed_count (tasks st))) +:+ "/" +:+
        Number_toString (Z.of_nat (length (tasks st))) +:+ " tasks completed" ∧
      completed_count (tasks st) <= length (tasks st)
  end.
Proof.
  rewrite updateStatusBar_task_text. unfold task_text, completed_count.
  destruct (tasks st) as [|t ts] eqn:Hts; [done|].
  change (0 <? length (t :: ts))%nat with true. cbv iota.
  split; [|split; [done|apply length_filter]].
  split; [|done]. intros H.
  destruct (Number_toString_nat_head (length (filter (λ t, completed t = true) (t :: ts))))
    as (c & s & Hc & Hdigit).
  rewrite Hc in H. injection H as -> _. cbv in Hdigit. lia.
Qed.

(** X2. Deleting at an index within bounds shortens the list by one: the
    tasks before the index stay where they are, each task after it moves
    down by one place, and the store holds the new list. *)
Theorem deleteTask_shifts_down (st : State) (now i : Z) :
  (0 <= i < Z.of_nat (length (tasks st)))%Z ->
  S (length (tasks (deleteTask i now st))) = length (tasks st) /\
  (∀ j, j < Z.to_nat i -> tasks (deleteTask i now st) !! j = tasks st !! j) /\
  (∀ j, Z.to_nat i <= j -> tasks (deleteTask i now st) !! j = tasks st !! S j) /\
  gs_tasks (globalState (deleteTask i now st)) = Some (tasks (deleteTask i now st)).
Proof.
  intros Hi. unfold deleteTask. rewrite (in_range_true i st Hi).
  rewrite updateViews_globalState, updateViews_tasks. simpl.
  split_and!; [|apply list_lookup_delete_lt|apply list_lookup_delete_ge|done].
  rewrite length_delete; [lia|]. apply lookup_lt_is_Some. lia.
Qed.

Lemma deleteTask_shifts_down_two_tasks :
  (0 <= 0 < Z.of_nat (length (tasks two_tasks)))%Z /\
  tasks (deleteTask 0 5%Z two_tasks) = [mkTask "Review" false] /\
  tasks (deleteTask 0 5%Z two_tasks) !! 0 = tasks two_tasks !! 1.
Proof.
  assert (0 <= 0 < Z.of_nat (length (tasks two_tasks)))%Z as Hi.
  { vm_compute. split; [discriminate|reflexivity]. }
  destruct (deleteTask_shifts_down two_tasks 5%Z 0%Z Hi) as (_ & _ & Hge & _).
  split; [exact Hi|]. split; [vm_compute; reflexivity|].
  apply (Hge 0). simpl. lia.
Defined.

(** X3. Editing at an index within bounds replaces the description of that
    task and nothing else: its completion flag, every other task and the
    length of the list are as before, and the store holds the new list. *)
Theorem editTask_overwrites_description (st : State) (now i : Z) (d : string) :
  (0 <= i < Z.of_nat (length (tasks st)))%Z ->
  (∃ t, tasks st !! Z.to_nat i = Some t ∧
        tasks (editTask i d now st) !! Z.to_nat i = Some (mkTask d (completed t))) /\
  (∀ j, j ≠ Z.to_nat i -> tasks (editTask i d now st) !! j = tasks st !! j) /\
  length (tasks (editTask i d now st)) = length (tasks st) /\
  gs_tasks (globalState (editTask i d now st)) = Some (tasks (editTask i d now st)).
Proof.
  intros Hi. unfold editTask. rewrite (in_range_true i st Hi).
  rewrite updateViews_globalState, updateViews_tasks. simpl.
  destruct (lookup_lt_is_Some_2 (tasks st) (Z.to_nat i) ltac:(lia)) as [t Ht].
  split_and!; [|intros j Hj; by apply list_lookup_alter_ne|apply length_alter|done].
  exists t. split; [done|]. by rewrite list_lookup_alter_eq, Ht.
Qed.

Lemma editTask_overwrites_description_two_tasks :
  (0 <= 1 < Z.of_nat (length (tasks two_tasks)))%Z /\
  tasks (editTask 1 "Review twice" 5%Z two_tasks) =
    [mkTask "Write spec" false; mkTask "Review twice" false].
Proof.
  assert (0 <= 1 < Z.of_nat (length (tasks two_tasks)))%Z as Hi.
  { vm_compute. split; [discriminate|reflexivity]. }
  destruct (editTask_overwrites_description two_tasks 5%Z 1%Z "Review twice" Hi)
    as ((t & Ht & Hnew) & Hother & Hlen & _).
  split; [exact Hi|]. vm_compute. reflexivity.
Defined.

(** X4. Toggling at an index within bounds flips the completion flag of that
    task and leaves its description and the other tasks alone; toggling the
    same index again gives back the task list there was, in memory and in
    the store. *)
Theorem toggleTask_twice (st : State) (now now2 i : Z) :
  (0 <= i < Z.of_nat (length (tasks st)))%Z ->
  (∃ t, tasks st !! Z.to_nat i = Some t ∧
        tasks (toggleTask i now st) !! Z.to_nat i =
          Some (mkTask (description t) (negb (completed t)))) /\
  (∀ j, j ≠ Z.to_nat i -> tasks (toggleTask i now st) !! j = tasks st !! j) /\
  tasks (toggleTask i now2 (toggleTask i now st)) = tasks st /\
  gs_tasks (globalState (toggleTask i now2 (toggleTask i now st))) = Some (tasks st).
Proof.
  intros Hi.
  assert (tasks (toggleTask i now st) = alter with_toggled (Z.to_nat i) (tasks st)) as H1.
  { unfold toggleTask. rewrite (in_range_true i st Hi). by rewrite updateViews_tasks. }
  assert (alter with_toggled (Z.to_nat i) (tasks (toggleTask i now st)) = tasks st) as H2.
  { rewrite H1, list_alter_alter_eq.
    apply list_alter_id. intros [d c]. unfold with_toggled. simpl.
    by rewrite negb_involutive. }
  assert (toggleTask i now2 (toggleTask i now st) =
          updateViews now2 (set_tasks (tasks st) (toggleTask i now st))) as H3.
  { unfold toggleTask at 1. rewrite in_range_true by (rewrite H1, length_alter; lia).
    by rewrite H2. }
  destruct (lookup_lt_is_Some_2 (tasks st) (Z.to_nat i) ltac:(lia)) as [t Ht].
  split_and!.
  - exists t. split; [done|]. by rewrite H1, list_lookup_alter_eq, Ht.
  - intros j Hj. rewrite H1. by apply list_lookup_alter_ne.
  - by rewrite H3, updateViews_tasks.
  - by rewrite H3, updateViews_globalState.
Qed.

Lemma toggleTask_twice_two_tasks :
  (0 <= 0 < Z.of_nat (length (tasks two_tasks)))%Z /\
  tasks (toggleTask 0 5%Z two_tasks) =
    [mkTask "Write spec" true; mkTask "Review" false] /\
  tasks (toggleTask 0 9%Z (toggleTask 0 5%Z two_tasks)) = tasks two_tasks.
Proof.
  assert (0 <= 0 < Z.of_nat (length (tasks two_tasks)))%Z as Hi.
  { vm_compute. split; [discriminate|reflexivity]. }
  destruct (toggleTask_twice two_tasks 5%Z 9%Z 0%Z Hi) as (_ & _ & Hback & _).
  split; [exact Hi|]. split; [vm_compute; reflexivity|exact Hback].
Defined.

(** X5. Adding a task with a non-empty description puts it, not completed,
    at the end of the list, keeps the tasks there were and the number of
    completed ones, and stores the new list; a dismissed prompt or an empty
    answer changes nothing. *)
Theorem addTask_appends (st : State) (now : Z) (d : string) :
  d ≠ EmptyString ->
  tasks (addTask (Some d) now st) = tasks st ++ [mkTask d false] /\
  completed_count (tasks (addTask (Some d) now st)) = completed_count (tasks st) /\
  gs_tasks (globalState (addTask (Some d) now st)) = Some (tasks st ++ [mkTask d false]) /\
  addTask None now st = st /\
  addTask (Some EmptyString) now st = st.
Proof.
  intros Hd.
  assert (addTask (Some d) now st =
          updateViews now (set_tasks (tasks st ++ [mkTask d false]) st)) as ->.
  { unfold addTask, falsy. by case_bool_decide. }
  rewrite updateViews_tasks, updateViews_globalState. simpl.
  split_and!; try done.
  unfold completed_count. rewrite filter_app, length_app. simpl. lia.
Qed.

Lemma addTask_appends_Review :
  "Review" ≠ EmptyString /\
  tasks (addTask (Some "Review") 3%Z (constructor empty_store 0 0%Z)) =
    tasks (constructor empty_store 0 0%Z) ++ [mkTask "Review" false].
Proof.
  assert ("Review" ≠ EmptyString) as Hd by discriminate.
  destruct (addTask_appends (constructor empty_store 0 0%Z) 3%Z "Review" Hd) as (Ht & _).
  split; [exact Hd|exact Ht].
Defined.

(** * Activation *)

Lemma restore_one_log now st e :
  log (restore_one now st e) =
  log st ++ map announce_completed (filter (λ e, ¬ not_expired now e) [e]).
Proof.
  unfold restore_one. rewrite filter_cons, filter_nil. unfold not_expired.
  destruct (Z.leb_spec (stored_endTime e - now) 0); simpl.
  - rewrite decide_True by lia. done.
  - rewrite decide_False by lia. by rewrite app_nil_r.
Qed.

Lemma foldl_restore_one_log now stored st :
  log (foldl (restore_one now) st stored) =
  log st ++ map announce_completed (filter (λ e, ¬ not_expired now e) stored).
Proof.
  revert st. induction stored as [|e stored IH]; intros st; simpl.
  - by rewrite app_nil_r.
  - rewrite IH, restore_one_log, <- app_assoc, <- map_app. by rewrite <- filter_app.
Qed.

Lemma all_armed_restore_one now st e : all_armed st -> all_armed (restore_one now st e).
Proof.
  unfold all_armed, restore_one. intros Hst.
  destruct (_ <=? _)%Z; [done|]. simpl.
  apply Forall_app. split.
  - eapply Forall_impl; [exact Hst|]. simpl. intros t [Hlt Hh].
    split; [lia|]. rewrite lookup_insert_ne by lia. done.
  - apply Forall_singleton. simpl. split; [lia|]. apply lookup_insert_eq.
Qed.

Lemma all_armed_foldl_restore_one now stored st :
  all_armed st -> all_armed (foldl (restore_one now) st stored).
Proof.
  revert st. induction stored as [|e stored IH]; intros st Hst; [done|].
  simpl. by apply IH, all_armed_restore_one.
Qed.

Lemma foldl_restore_one_tasks now stored st :
  tasks (foldl (restore_one now) st stored) = tasks st.
Proof.
  revert st. induction stored as [|e stored IH]; intros st; simpl; [done|].
  rewrite IH. unfold restore_one. by destruct (_ <=? _)%Z.
Qed.

Lemma foldl_restore_one_webviewView now stored st :
  webviewView (foldl (restore_one now) st stored) = webviewView st.
Proof.
  revert st. induction stored as [|e stored IH]; intros st; simpl; [done|].
  rewrite IH. unfold restore_one. by destruct (_ <=? _)%Z.
Qed.

(** X6. On activation every stored timer is dealt with in exactly one way.
    Those with endTime <= now are announced as completed, in stored order,
    and nothing else is shown; those with endTime > now become the timer
    list, arranged by endTime, and each has a live callback watching its
    endTime. *)
Theorem activation_announces_or_rearms (context : Memento) (h0 : nat) (now : Z) :
  log (constructor context h0 now) =
    map announce_completed
      (filter (λ e, ¬ not_expired now e) (default [] (gs_activeTimers context))) /\
  map serialize_timer (timers (constructor context h0 now)) =
    Array_sort by_stored_endTime
      (filter (not_expired now) (default [] (gs_activeTimers context))) /\
  length (log (constructor context h0 now)) + length (timers (constructor context h0 now)) =
    length (default [] (gs_activeTimers context)) /\
  Forall (λ t, intervals (constructor context h0 now) !! timerInterval t =
               Some (RestoreTimersTick (endTime t)))
         (timers (constructor context h0 now)).
Proof.
  assert (log (constructor context h0 now) =
          map announce_completed
            (filter (λ e, ¬ not_expired now e) (default [] (gs_activeTimers context)))) as Hlog.
  { rewrite constructor_unfold. unfold restoreTasks. cbn [log set_tasks].
    unfold restoreTimers. by rewrite updateStatusBar_log, foldl_restore_one_log. }
  assert (map serialize_timer (timers (constructor context h0 now)) =
          Array_sort by_stored_endTime
            (filter (not_expired now) (default [] (gs_activeTimers context)))) as Hts.
  { rewrite constructor_timers. by rewrite restoreTimers_sorts_unexpired. }
  split_and!; [done|done| |].
  - rewrite Hlog, length_map, <- (length_map serialize_timer), Hts.
    rewrite (Array_sort_length stored_endTime).
    rewrite Nat.add_comm.
    by rewrite <- length_app, (filter_app_complement (not_expired now)).
  - rewrite constructor_unfold. unfold restoreTasks. cbn [timers intervals set_tasks].
    unfold restoreTimers. set (st1 := foldl _ _ _).
    assert (all_armed st1) as Harmed.
    { apply all_armed_foldl_restore_one. constructor. }
    rewrite updateStatusBar_timers, updateStatusBar_intervals, sort_timers_Permutation.
    eapply Forall_impl; [exact Harmed|]. by intros t [_ Ht].
Qed.

Lemma constructor_initialized context h0 now :
  constructor context h0 now = constructor (initialized context) h0 now.
Proof. by rewrite !constructor_unfold. Qed.

Lemma constructor_globalState context h0 now :
  globalState (constructor context h0 now) = initialized context.
Proof.
  rewrite constructor_unfold. unfold restoreTasks. cbn [globalState set_tasks].
  unfold restoreTimers.
  by rewrite updateStatusBar_globalState, foldl_restore_one_globalState.
Qed.

Lemma constructor_tasks context h0 now :
  tasks (constructor context h0 now) = default [] (gs_tasks context).
Proof.
  rewrite constructor_unfold. unfold restoreTasks.
  cbn [tasks set_tasks globalState gs_tasks]. unfold restoreTimers.
  by rewrite updateStatusBar_globalState, foldl_restore_one_globalState.
Qed.

(** X7. Activation writes nothing to the store beyond creating the two keys
    when they are missing: stored timers that have expired stay stored, so a
    second activation from the store the first one left behaves exactly as an
    activation from the original store does, announcements included. *)
Theorem activation_keeps_store (context : Memento) (h0 h1 : nat) (now now' : Z) :
  gs_activeTimers (globalState (constructor context h0 now)) =
    Some (default [] (gs_activeTimers context)) /\
  gs_tasks (globalState (constructor context h0 now)) =
    Some (default [] (gs_tasks context)) /\
  constructor (globalState (constructor context h0 now)) h1 now' =
    constructor context h1 now'.
Proof.
  rewrite constructor_globalState. split_and!; [done..|].
  symmetry. apply constructor_initialized.
Qed.

(** X8. Activation restores the stored task list as it is, but the task item
    of the status bar is computed before the list is restored: it reads
    "No tasks" whatever was restored, until the next recomputation, which
    shows the restored list. No panel is attached yet. *)
Theorem activation_restores_tasks (context : Memento) (h0 : nat) (now now' : Z) :
  tasks (constructor context h0 now) = default [] (gs_tasks context) /\
  taskStatusBarItem_text (constructor context h0 now) = "No tasks" /\
  taskStatusBarItem_text (updateStatusBar now' (constructor context h0 now)) =
    task_text (default [] (gs_tasks context)) /\
  webviewView (constructor context h0 now) = false.
Proof.
  rewrite updateStatusBar_task_text.
  rewrite constructor_unfold. unfold restoreTasks.
  cbn [tasks taskStatusBarItem_text webviewView globalState gs_tasks set_tasks].
  unfold restoreTimers.
  rewrite updateStatusBar_task_text, updateStatusBar_webviewView,
    updateStatusBar_globalState, foldl_restore_one_globalState.
  rewrite foldl_restore_one_tasks, foldl_restore_one_webviewView. done.
Qed.

(** * The store along a run *)

Lemma store_sound_updateViews now st : store_sound (updateViews now st).
Proof.
  destruct (updateViews_in_sync now st) as [Ha Ht].
  assert (default [] (gs_activeTimers (globalState (updateViews now st))) =
          map serialize_timer (timers (updateViews now st))) as Hd by by rewrite Ha.
  split; [split; [done|]|]; rewrite Hd; [done|].
  apply ascending_serialize. rewrite updateViews_timers. apply sort_ascending.
Qed.

Lemma store_sound_ext st st' :
  timers st' = timers st -> tasks st' = tasks st -> globalState st' = globalState st ->
  store_sound st -> store_sound st'.
Proof. unfold store_sound, store_covers. by intros -> -> ->. Qed.

Lemma store_sound_updateStatusBar now st :
  ascending (timers st) -> store_sound st -> store_sound (updateStatusBar now st).
Proof.
  intros Hasc. apply store_sound_ext.
  - rewrite updateStatusBar_timers. by apply sort_ascending_id.
  - apply updateStatusBar_tasks.
  - apply updateStatusBar_globalState.
Qed.

(** Dropping timers from the list keeps the store sound. *)
Lemma store_sound_drop (P : Timer -> Prop) `{!∀ t, Decision (P t)} st st' :
  timers st' = filter P (timers st) -> tasks st' = tasks st ->
  globalState st' = globalState st ->
  store_sound st -> store_sound st'.
Proof.
  intros Ht Hk Hg [[Htasks Hsub] Hsorted].
  split; [split|]; rewrite ?Ht, ?Hk, ?Hg; [done| |done].
  etrans; [|exact Hsub]. apply fmap_sublist, sublist_filter.
Qed.

Lemma store_sound_constructor context h0 now :
  stored_ascending (default [] (gs_activeTimers context)) ->
  store_sound (constructor context h0 now).
Proof.
  intros Hsorted.
  pose proof (constructor_tasks context h0 now) as Hk.
  split; [split|]; rewrite constructor_globalState; unfold initialized;
    cbn [gs_tasks gs_activeTimers default from_option id]; [by rewrite Hk| |done].
  rewrite constructor_timers.
  erewrite restoreTimers_of_ascending; [apply sublist_filter|reflexivity|done].
Qed.

Lemma store_sound_step now ev st :
  well_formed st -> store_sound st -> store_sound (step now ev st).
Proof.
  intros [Hc Hasc] Hs.
  assert (∀ v, store_sound (updateViews now (set_tasks v st))) as Htasks.
  { intros v. apply store_sound_updateViews. }
  destruct ev as [l m|l| |h|task|i d|i|i| | |message|]; simpl.
  - unfold startTimer.
    destruct l as [l0|]; [|done]. destruct m as [m|]; [|done].
    destruct (falsy _); [done|]. destruct (validateInput m); [done|].
    destruct (unique_label _ _); [|done]. apply store_sound_updateViews.
  - unfold stopTimer. destruct (find _ _); [apply store_sound_updateViews|done].
  - apply store_sound_updateViews.
  - unfold tick. destruct (intervals st !! h) as [[l e|e]|]; [| |done].
    + destruct (_ <=? _)%Z; [|by apply store_sound_updateStatusBar].
      apply store_sound_updateStatusBar.
      * by apply (StronglySorted_filter_list endTime).
      * by apply (store_sound_drop (λ t, label t ≠ l) st).
    + by destruct (_ <=? _)%Z.
  - unfold addTask. destruct task; [|done]. by destruct (falsy _).
  - unfold editTask. by destruct (in_range _ _).
  - unfold toggleTask. by destruct (in_range _ _).
  - unfold deleteTask. by destruct (in_range _ _).
  - unfold showTaskManager. by destruct (webviewView st).
  - done.
  - unfold onDidReceiveMessage, sendDataToWebview, editTask, toggleTask, deleteTask.
    destruct (webviewView st); [|done].
    destruct message; [done|by destruct (in_range _ _)..].
  - apply store_sound_constructor, Hs.
Qed.

Lemma reachable_store_sound st : reachable st -> store_sound st.
Proof.
  induction 1 as [h0 now|st now ev Hr IH].
  - apply store_sound_constructor. constructor.
  - apply store_sound_step; [by apply reachable_well_formed|done].
Qed.

(** X9. In every state of a run the store holds exactly the in-memory task
    list, and its timer entry, which is in order of endTime, contains the
    label/endTime pair of every active timer, in list order (it may also
    hold timers that have since expired). So a restart loses no task: the
    task list after it is the one before. *)
Theorem store_covers_memory (st : State) :
  reachable st ->
  gs_tasks (globalState st) = Some (tasks st) /\
  map serialize_timer (timers st) `sublist_of`
    default [] (gs_activeTimers (globalState st)) /\
  stored_ascending (default [] (gs_activeTimers (globalState st))) /\
  ∀ now, tasks (step now Restart st) = tasks st.
Proof.
  intros [[Ht Hsub] Hsorted]%reachable_store_sound.
  split_and!; [done..|].
  intros now. change (step now Restart st) with
    (constructor (globalState st) (next_handle st) now).
  by rewrite constructor_tasks, Ht.
Qed.

Lemma store_covers_memory_one_expired :
  reachable one_expired /\
  gs_tasks (globalState one_expired) = Some (tasks one_expired) /\
  map serialize_timer (timers one_expired) = [mkStoredTimer "Build" 300000%Z] /\
  gs_activeTimers (globalState one_expired) =
    Some [mkStoredTimer "Deploy" 60000%Z; mkStoredTimer "Build" 300000%Z] /\
  map serialize_timer (timers one_expired) `sublist_of`
    default [] (gs_activeTimers (globalState one_expired)).
Proof.
  assert (reachable one_expired) as Hr.
  { do 2 apply reachable_run. apply reachable_activate. }
  destruct (store_covers_memory one_expired Hr) as (Ht & Hsub & _).
  split_and!; [done|done|vm_compute; reflexivity|vm_compute; reflexivity|done].
Defined.

(** X10. In every state of a run the timer list is in ascending order of
    endTime, no two timers share an interval handle, and every registered
    interval belongs to a timer of the list whose label or endTime its
    callback captured: there is no stray callback. *)
Theorem run_keeps_timers_in_order (st : State) :
  reachable st ->
  ascending (timers st) /\
  NoDup (timerInterval <$> timers st) /\
  (∀ h cb, intervals st !! h = Some cb ->
           ∃ t, t ∈ timers st ∧ timerInterval t = h ∧ owns t cb) /\
  ∀ now, timers (updateStatusBar now st) = timers st.
Proof.
  intros [[_ [H2 _ H4] _] Ha]%reachable_well_formed.
  split_and!; [done..|].
  intros now. rewrite updateStatusBar_timers. by apply sort_ascending_id.
Qed.

Lemma run_keeps_timers_in_order_two_timers :
  reachable two_timers /\
  map label (timers two_timers) = ["Deploy"; "Build"] /\
  ascending (timers two_timers) /\
  timers (updateStatusBar 7%Z two_timers) = timers two_timers.
Proof.
  assert (reachable two_timers) as Hr by apply reachable_run, reachable_activate.
  destruct (run_keeps_timers_in_order two_timers Hr) as (Ha & _ & _ & Hid).
  split_and!; [done|vm_compute; reflexivity|done|apply Hid].
Defined.

(** * Clearing and deactivating *)

Lemma clear_all_intervals st :
  (∀ h cb, intervals st !! h = Some cb ->
           ∃ t, t ∈ timers st ∧ timerInterval t = h ∧ owns t cb) ->
  intervals (foldl (λ s timer, clearInterval (timerInterval timer) s) st (timers st)) = ∅.
Proof.
  intros Howned.
  destruct (foldl_clearInterval_frame (timers st) st) as (_ & _ & _ & _ & _ & _ & Hi).
  apply map_empty. intros h. rewrite Hi. case_decide as Hmem; [done|].
  destruct (intervals st !! h) as [cb|] eqn:Hh; [|done].
  destruct (Howned h cb Hh) as (t & Hin & <- & _).
  destruct Hmem. by apply list_elem_of_fmap_2.
Qed.

(** X11. After clearing all timers in a state of a run nothing of them is
    left: the list is empty, no interval is registered at all, the store's
    timer entry is the empty list, and the status bar shows the idle text.
    The tasks are untouched, in memory and in the store, and the user is
    told once that all timers were cleared. *)
Theorem clearTimers_leaves_nothing (st : State) (now : Z) :
  reachable st ->
  timers (clearTimers now st) = [] /\
  intervals (clearTimers now st) = ∅ /\
  gs_activeTimers (globalState (clearTimers now st)) = Some [] /\
  timerStatusBarItem_text (clearTimers now st) = "No active timers" /\
  tasks (clearTimers now st) = tasks st /\
  gs_tasks (globalState (clearTimers now st)) = Some (tasks st) /\
  log (clearTimers now st) =
    log st ++ showInformationMessage "All timers cleared." ::
      (if webviewView st then [postMessage (tasks st) []] else []).
Proof.
  intros [[_ [_ _ Howned] _] _]%reachable_well_formed.
  pose proof (clear_all_intervals st Howned) as Hempty.
  destruct (foldl_clearInterval_frame (timers st) st) as (_ & Hk & Hw & _ & _ & Hl & _).
  unfold clearTimers.
  rewrite updateViews_timers, updateViews_intervals, updateViews_globalState,
    updateViews_timer_text, updateStatusBar_timer_text, updateViews_tasks, updateViews_log.
  cbn [timers tasks intervals webviewView log emit globalState_update_activeTimers
         set_globalState set_timers Array_sort foldr map gs_activeTimers gs_tasks].
  rewrite Hk, Hw, Hl. split_and!; try done.
  destruct (webviewView st); [|done]. by rewrite <- app_assoc.
Qed.

Lemma clearTimers_leaves_nothing_two_timers :
  reachable two_timers /\
  intervals two_timers !! 0 = Some (StartTimerTick "Build" 300000%Z) /\
  timers (clearTimers 10%Z two_timers) = [] /\
  intervals (clearTimers 10%Z two_timers) = ∅.
Proof.
  assert (reachable two_timers) as Hr by apply reachable_run, reachable_activate.
  destruct (clearTimers_leaves_nothing two_timers 10%Z Hr) as (Ht & Hi & _).
  split_and!; [done|vm_compute; reflexivity|done|done].
Defined.

(** X12. Deactivating in a state of a run cancels every registered interval
    and touches nothing else: lists, store, status bar and log are as they
    were, so the snapshot on disk is the one the last sync wrote. *)
Theorem deactivate_cancels_every_interval (st : State) :
  reachable st ->
  intervals (deactivate st) = ∅ /\
  timers (deactivate st) = timers st /\
  tasks (deactivate st) = tasks st /\
  globalState (deactivate st) = globalState st /\
  log (deactivate st) = log st.
Proof.
  intros [[_ [_ _ Howned] _] _]%reachable_well_formed.
  destruct (foldl_clearInterval_frame (timers st) st) as (Ht & Hk & _ & Hg & _ & Hl & _).
  unfold deactivate. split_and!; [by apply clear_all_intervals|done..].
Qed.

Lemma deactivate_cancels_every_interval_two_timers :
  reachable two_timers /\
  intervals two_timers !! 1 = Some (StartTimerTick "Deploy" 60000%Z) /\
  intervals (deactivate two_timers) = ∅ /\
  timers (deactivate two_timers) = timers two_timers.
Proof.
  assert (reachable two_timers) as Hr by apply reachable_run, reachable_activate.
  destruct (deactivate_cancels_every_interval two_timers Hr) as (Hi & Ht & _).
  split_and!; [done|vm_compute; reflexivity|done|done].
Defined.

(** * What a tick leaves alone *)

Lemma filter_panel_app (l1 l2 : list Effect) :
  Forall (λ e, is_panel_effect e = false) l2 ->
  filter (λ e, is_panel_effect e = true) (l1 ++ l2) =
  filter (λ e, is_panel_effect e = true) l1.
Proof.
  intros Hl2. rewrite filter_app.
  assert (filter (λ e, is_panel_effect e = true) l2 = []) as ->.
  { induction Hl2 as [|e l2 He _ IH]; [done|].
    rewrite filter_cons, decide_False by congruence. done. }
  apply app_nil_r.
Qed.

(** X13. No firing of an interval callback, expired or not, writes the
    store, changes the tasks, posts to the panel or registers an interval:
    the store, the task list and what the panel has received are as before,
    every interval registered afterwards was registered before, and every
    timer in the list afterwards was in the list before. *)
Theorem tick_never_writes (h : nat) (now : Z) (st : State) :
  globalState (tick h now st) = globalState st /\
  tasks (tick h now st) = tasks st /\
  filter (λ e, is_panel_effect e = true) (log (tick h now st)) =
    filter (λ e, is_panel_effect e = true) (log st) /\
  intervals (tick h now st) ⊆ intervals st /\
  next_handle (tick h now st) = next_handle st /\
  Forall (λ t, t ∈ timers st) (timers (tick h now st)).
Proof.
  unfold tick. destruct (intervals st !! h) as [[l e|e]|] eqn:Hh.
  - destruct (_ <=? _)%Z;
      rewrite updateStatusBar_globalState, updateStatusBar_tasks, updateStatusBar_log,
        updateStatusBar_intervals, updateStatusBar_next_handle, updateStatusBar_timers,
        sort_timers_Permutation;
      cbn [globalState tasks log intervals next_handle timers set_timers emit clearInterval].
    + split_and!; try done.
      * rewrite <- app_assoc. apply filter_panel_app. by repeat constructor.
      * apply delete_subseteq.
      * apply Forall_forall. by intros t [_ Ht]%list_elem_of_filter.
    + split_and!; try done. by apply Forall_forall.
  - destruct (_ <=? _)%Z; cbn [clearInterval intervals]; split_and!; try done.
    + apply delete_subseteq.
    + by apply Forall_forall.
    + by apply Forall_forall.
  - split_and!; try done. by apply Forall_forall.
Qed.

(** * Creating after stopping *)

Lemma stopTimer_label_gone l now st : l ∉ label <$> timers (stopTimer l now st).
Proof.
  unfold stopTimer. destruct (find _ (timers st)) as [timer|] eqn:Hfind.
  - rewrite updateViews_timers, sort_timers_Permutation. simpl.
    intros (t & -> & [Hne _]%list_elem_of_filter)%list_elem_of_fmap. done.
  - simpl. intros Hl. destruct (find_label_Some _ _ Hl) as (timer & Hsome & _).
    congruence.
Qed.

Lemma stopTimer_next_handle l now st :
  next_handle (stopTimer l now st) = next_handle st.
Proof.
  unfold stopTimer. destruct (find _ _); [|done]. by rewrite updateViews_next_handle.
Qed.

(** X14. A label is free again as soon as its timer is stopped: whatever the
    state, a creation with label L right after a stop of L stores a timer
    labelled exactly L, without marker, under the next handle and ending
    the requested number of minutes after the creation. *)
Theorem stop_then_create_reuses_label (st : State) (now now2 : Z) (l : string) (m : Z) :
  l ≠ EmptyString -> (0 < m)%Z ->
  mkTimer l (next_handle st) (now2 + m * 60 * 1000) ∈
    timers (startTimer (Some l) (Some m) now2 (stopTimer l now st)) /\
  length (timers (startTimer (Some l) (Some m) now2 (stopTimer l now st))) =
    S (length (timers (stopTimer l now st))).
Proof.
  intros Hl Hm.
  destruct (startTimer_accepted (stopTimer l now st) now2 l m Hl Hm)
    as (k & -> & _ & Hbelow).
  assert (k = 0) as ->.
  { destruct k as [|k]; [done|]. specialize (Hbelow 0 ltac:(lia)).
    rewrite string_app_nil_r in Hbelow. by apply stopTimer_label_gone in Hbelow. }
  rewrite string_app_nil_r, stopTimer_next_handle, updateViews_timers.
  cbn [timers set_timers setInterval snd].
  split.
  - rewrite sort_timers_Permutation. apply elem_of_app. right. left.
  - rewrite sort_timers_length, length_app. simpl. lia.
Qed.

Lemma stop_then_create_reuses_label_Build :
  "Build" ≠ EmptyString /\ (0 < 3)%Z /\
  map label (timers (startTimer (Some "Build") (Some 3%Z) 20%Z
                       (stopTimer "Build" 10%Z two_timers))) = ["Deploy"; "Build"] /\
  mkTimer "Build" (next_handle two_timers) (20 + 3 * 60 * 1000) ∈
    timers (startTimer (Some "Build") (Some 3%Z) 20%Z (stopTimer "Build" 10%Z two_timers)).
Proof.
  assert ("Build" ≠ EmptyString) as Hl by discriminate.
  assert (0 < 3)%Z as Hm by lia.
  destruct (stop_then_create_reuses_label two_timers 10%Z 20%Z "Build" 3%Z Hl Hm)
    as [Hin _].
  split; [exact Hl|]. split; [exact Hm|]. split; [vm_compute; reflexivity|exact Hin].
Defined.

(** X15. An accepted creation arms and persists what it stores: the new
    timer is in the list under the handle just drawn, the interval
    registered under that handle captured the timer's label and endTime
    (now plus the minutes), the store's timer entry contains the pair, the
    store equals the lists, and the tasks are untouched. *)
Theorem startTimer_arms_and_persists (st : State) (now : Z) (l0 : string) (m : Z) :
  l0 ≠ EmptyString -> (0 < m)%Z ->
  ∃ l,
    mkTimer l (next_handle st) (now + m * 60 * 1000) ∈
      timers (startTimer (Some l0) (Some m) now st) ∧
    intervals (startTimer (Some l0) (Some m) now st) !! next_handle st =
      Some (StartTimerTick l (now + m * 60 * 1000)) ∧
    mkStoredTimer l (now + m * 60 * 1000) ∈
      default [] (gs_activeTimers (globalState (startTimer (Some l0) (Some m) now st))) ∧
    snapshot_in_sync (startTimer (Some l0) (Some m) now st) ∧
    next_handle (startTimer (Some l0) (Some m) now st) = S (next_handle st) ∧
    length (timers (startTimer (Some l0) (Some m) now st)) = S (length (timers st)) ∧
    tasks (startTimer (Some l0) (Some m) now st) = tasks st.
Proof.
  intros Hl Hm.
  destruct (startTimer_accepted st now l0 m Hl Hm) as (k & -> & _ & _).
  exists (l0 +:+ stars k).
  assert (mkTimer (l0 +:+ stars k) (next_handle st) (now + m * 60 * 1000) ∈
          Array_sort by_endTime
            (timers st ++ [mkTimer (l0 +:+ stars k) (next_handle st) (now + m * 60 * 1000)]))
    as Hin.
  { rewrite sort_timers_Permutation. apply elem_of_app. right. left. }
  rewrite updateViews_timers, updateViews_intervals, updateViews_globalState,
    updateViews_next_handle, updateViews_tasks.
  cbn [timers tasks intervals next_handle set_timers setInterval snd gs_activeTimers
         default from_option id].
  split_and!; [done| | |apply updateViews_in_sync|done| |done].
  - apply lookup_insert_eq.
  - apply (list_elem_of_fmap_2 serialize_timer) in Hin. exact Hin.
  - rewrite sort_timers_length, length_app. simpl. lia.
Qed.

Lemma startTimer_arms_and_persists_Deploy :
  "Deploy" ≠ EmptyString /\ (0 < 1)%Z /\
  ∃ l,
    mkTimer l (next_handle one_timer) (0 + 1 * 60 * 1000) ∈
      timers (startTimer (Some "Deploy") (Some 1%Z) 0%Z one_timer) ∧
    intervals (startTimer (Some "Deploy") (Some 1%Z) 0%Z one_timer) !! next_handle one_timer =
      Some (StartTimerTick l (0 + 1 * 60 * 1000)).
Proof.
  assert ("Deploy" ≠ EmptyString) as Hl by discriminate.
  assert (0 < 1)%Z as Hm by lia.
  destruct (startTimer_arms_and_persists one_timer 0%Z "Deploy" 1%Z Hl Hm)
    as (l & Hin & Hh & _).
  split; [exact Hl|]. split; [exact Hm|]. exists l. split; [exact Hin|exact Hh].
Defined.

(** * Without a panel *)

Lemma updateViews_webviewView now st :
  webviewView (updateViews now st) = webviewView st.
Proof.
  rewrite <- (updateStatusBar_webviewView now st).
  unfold updateViews.
  cbn [webviewView globalState_update_tasks globalState_update_activeTimers
         set_globalState].
  unfold sendDataToWebview.
  by destruct (webviewView (updateStatusBar now st)) eqn:Hw.
Qed.

Lemma quiet_updateStatusBar now st : quiet st -> quiet (updateStatusBar now st).
Proof.
  unfold quiet. by rewrite updateStatusBar_webviewView, updateStatusBar_log.
Qed.

Lemma quiet_updateViews now st : quiet st -> quiet (updateViews now st).
Proof.
  unfold quiet. rewrite updateViews_webviewView, updateViews_log.
  by intros [-> Hlog].
Qed.

Lemma quiet_emit e st : is_panel_effect e = false -> quiet st -> quiet (emit e st).
Proof.
  intros He [Hw Hlog]. split; [done|]. simpl.
  apply Forall_app. split; [done|]. by apply Forall_singleton.
Qed.

Lemma quiet_ext st st' :
  webviewView st' = webviewView st -> log st' = log st -> quiet st -> quiet st'.
Proof. unfold quiet. by intros -> ->. Qed.

Lemma constructor_log context h0 now :
  log (constructor context h0 now) =
  map announce_completed
    (filter (λ e, ¬ not_expired now e) (default [] (gs_activeTimers context))).
Proof.
  rewrite constructor_unfold. unfold restoreTasks. cbn [log set_tasks].
  unfold restoreTimers. by rewrite updateStatusBar_log, foldl_restore_one_log.
Qed.

Lemma quiet_constructor context h0 now : quiet (constructor context h0 now).
Proof.
  split.
  - rewrite constructor_unfold. unfold restoreTasks. cbn [webviewView set_tasks].
    unfold restoreTimers.
    by rewrite updateStatusBar_webviewView, foldl_restore_one_webviewView.
  - rewrite constructor_log. apply Forall_forall.
    by intros e (s & -> & _)%list_elem_of_fmap.
Qed.

Lemma quiet_step now ev st :
  ev ≠ ResolveWebviewView -> quiet st -> quiet (step now ev st).
Proof.
  intros Hev Hq.
  assert (∀ v, quiet (updateViews now (set_tasks v st))) as Htasks.
  { intros v. apply quiet_updateViews. by eapply quiet_ext; [..|exact Hq]. }
  destruct ev as [l m|l| |h|task|i d|i|i| | |message|]; simpl.
  - unfold startTimer.
    destruct l as [l0|]; [|done]. destruct m as [m|]; [|done].
    destruct (falsy _); [done|]. destruct (validateInput m); [done|].
    destruct (unique_label _ _); [|done].
    apply quiet_updateViews. by eapply quiet_ext; [..|exact Hq].
  - unfold stopTimer. destruct (find _ _) as [timer|].
    + apply quiet_updateViews.
      apply (quiet_ext (emit (showInformationMessage (l +:+ " timer stopped.")) st));
        [done..|]. by apply quiet_emit.
    + by apply quiet_emit.
  - unfold clearTimers. apply quiet_updateViews.
    destruct (foldl_clearInterval_frame (timers st) st) as (_ & _ & Hw & _ & _ & Hl & _).
    apply (quiet_ext (emit (showInformationMessage "All timers cleared.") st)).
    + done.
    + simpl. by rewrite Hl.
    + by apply quiet_emit.
  - unfold tick. destruct (intervals st !! h) as [[l e|e]|]; [| |done].
    + destruct (_ <=? _)%Z; apply quiet_updateStatusBar; [|done].
      apply (quiet_ext
               (emit (showInformationMessage (l +:+ " timer has completed."))
                  (emit (notifier_notify "Time's up!" (l +:+ " timer has completed.")) st)));
        [done..|]. by apply quiet_emit; [|apply quiet_emit].
    + destruct (_ <=? _)%Z; [|done]. by eapply quiet_ext; [..|exact Hq].
  - unfold addTask. destruct task; [|done]. by destruct (falsy _).
  - unfold editTask. by destruct (in_range _ _).
  - unfold toggleTask. by destruct (in_range _ _).
  - unfold deleteTask. by destruct (in_range _ _).
  - unfold showTaskManager. destruct Hq as [Hw Hlog]. rewrite Hw. by split.
  - by destruct Hev.
  - unfold onDidReceiveMessage. destruct Hq as [Hw Hlog]. rewrite Hw. by split.
  - apply quiet_constructor.
Qed.

(** X16. Until a panel is attached nothing is sent to one: along any run
    from an activation in which no panel view is resolved, whatever timers
    and tasks are created, changed or removed and however often the editor
    restarts, no update is posted and no panel is asked to show. *)
Theorem nothing_posted_without_panel
    (context : Memento) (h0 : nat) (now : Z) (trace : list (Z * Event)) :
  Forall (λ p, p.2 ≠ ResolveWebviewView) trace ->
  webviewView (run trace (constructor context h0 now)) = false /\
  Forall (λ e, is_panel_effect e = false) (log (run trace (constructor context h0 now))).
Proof.
  intros Htrace.
  pose proof (quiet_constructor context h0 now) as Hq.
  revert Hq. generalize (constructor context h0 now).
  induction Htrace as [|[t ev] trace Hev _ IH]; intros st Hq; [done|].
  simpl. apply IH. by apply quiet_step.
Qed.

Lemma nothing_posted_without_panel_two_timers :
  Forall (λ p : Z * Event, p.2 ≠ ResolveWebviewView)
    [(0%Z, StartTimer (Some "Build") (Some 5%Z)); (0%Z, ShowTaskManager);
     (60000%Z, Restart)] /\
  Forall (λ e, is_panel_effect e = false)
    (log (run [(0%Z, StartTimer (Some "Build") (Some 5%Z)); (0%Z, ShowTaskManager);
               (60000%Z, Restart)] (constructor empty_store 0 0%Z))).
Proof.
  assert (Forall (λ p : Z * Event, p.2 ≠ ResolveWebviewView)
            [(0%Z, StartTimer (Some "Build") (Some 5%Z)); (0%Z, ShowTaskManager);
             (60000%Z, Restart)]) as Htrace.
  { repeat constructor; discriminate. }
  destruct (nothing_posted_without_panel empty_store 0 0%Z _ Htrace) as [_ Hlog].
  split; [exact Htrace|exact Hlog].
Defined.

(** * The remaining time *)

(** X17. For a remaining time that is not negative, the text after the label
    is the number of whole minutes left, a colon, and the whole seconds left
    in the current minute as exactly two digits; minutes, seconds and the
    milliseconds that are cut off add up to the remaining time. *)
Theorem remaining_time_text (r : Z) :
  (0 <= r)%Z ->
  minutes_seconds r =
    Number_toString (r / 60000)%Z +:+ ":" +:+ two_digits (r mod 60000 / 1000)%Z /\
  (0 <= r mod 60000 / 1000 < 60)%Z /\
  (r = r / 60000 * 60000 + r mod 60000 / 1000 * 1000 + r mod 1000)%Z.
Proof.
  intros Hr. split; [by apply minutes_seconds_nonneg|].
  split; [Z.to_euclidean_division_equations; lia|].
  Z.to_euclidean_division_equations. lia.
Qed.

Lemma remaining_time_text_59 :
  (0 <= 59000)%Z /\ minutes_seconds 59000 = "0:59" /\ minutes_seconds 125999 = "2:05".
Proof.
  assert (0 <= 59000)%Z as Hr by lia.
  destruct (remaining_time_text 59000%Z Hr) as (Ht & _).
  split; [exact Hr|]. split; [rewrite Ht|]; vm_compute; reflexivity.
Defined.

(** * Syncing twice *)

Lemma updateViews_task_text now st :
  taskStatusBarItem_text (updateViews now st) = task_text (tasks st).
Proof.
  rewrite <- (updateStatusBar_task_text now st).
  unfold updateViews.
  cbn [taskStatusBarItem_text globalState_update_tasks globalState_update_activeTimers
         set_globalState].
  unfold sendDataToWebview. by destruct (webviewView (updateStatusBar now st)).
Qed.

(** X18. A view sync is idempotent on the state it mirrors: a second sync at
    the same instant leaves the timer list, the task list, the store, both
    status-bar texts and the registered intervals as the first one left
    them. *)
Theorem updateViews_twice (now : Z) (st : State) :
  timers (updateViews now (updateViews now st)) = timers (updateViews now st) /\
  tasks (updateViews now (updateViews now st)) = tasks (updateViews now st) /\
  globalState (updateViews now (updateViews now st)) = globalState (updateViews now st) /\
  timerStatusBarItem_text (updateViews now (updateViews now st)) =
    timerStatusBarItem_text (updateViews now st) /\
  taskStatusBarItem_text (updateViews now (updateViews now st)) =
    taskStatusBarItem_text (updateViews now st) /\
  intervals (updateViews now (updateViews now st)) = intervals (updateViews now st).
Proof.
  assert (Array_sort by_endTime (Array_sort by_endTime (timers st)) =
          Array_sort by_endTime (timers st)) as Hsort.
  { apply sort_ascending_id, sort_ascending. }
  rewrite !updateViews_timers, !updateViews_tasks, !updateViews_globalState,
    !updateViews_timer_text, !updateStatusBar_timer_text, !updateViews_task_text,
    !updateViews_intervals, !updateViews_timers, !updateViews_tasks, Hsort,
    sort_timers_length.
  done.
Qed.

(** * Stopping and expiring *)

(** X19. Stopping a label that is active tells the user once that the timer
    was stopped, takes every timer with that label out of the list and keeps
    every other timer, leaves the tasks alone, and ends with the store equal
    to the lists. *)
Theorem stopTimer_removes_label (st : State) (now : Z) (l : string) :
  l ∈ label <$> timers st ->
  (l ∉ label <$> timers (stopTimer l now st)) /\
  (∀ t, label t ≠ l -> (t ∈ timers (stopTimer l now st) <-> t ∈ timers st)) /\
  tasks (stopTimer l now st) = tasks st /\
  snapshot_in_sync (stopTimer l now st) /\
  filter (λ e, is_panel_effect e = false) (log (stopTimer l now st)) =
    filter (λ e, is_panel_effect e = false) (log st) ++
    [showInformationMessage (l +:+ " timer stopped.")].
Proof.
  intros Hl. split; [apply stopTimer_label_gone|].
  unfold stopTimer. destruct (find_label_Some l (timers st) Hl) as (timer & -> & _).
  rewrite updateViews_tasks, updateViews_log.
  cbn [tasks log webviewView timers set_timers emit clearInterval].
  split_and!; [|done|apply updateViews_in_sync|].
  - intros t Ht. rewrite updateViews_timers, sort_timers_Permutation.
    cbn [timers set_timers]. rewrite list_elem_of_filter. tauto.
  - destruct (webviewView st); rewrite !filter_app; simpl; [|done].
    by rewrite app_nil_r.
Qed.

Lemma stopTimer_removes_label_two_timers :
  ("Deploy" ∈ label <$> timers two_timers) /\
  map label (timers (stopTimer "Deploy" 10%Z two_timers)) = ["Build"] /\
  ("Deploy" ∉ label <$> timers (stopTimer "Deploy" 10%Z two_timers)).
Proof.
  assert ("Deploy" ∈ label <$> timers two_timers) as Hl.
  { apply has_label_true. vm_compute. reflexivity. }
  destruct (stopTimer_removes_label two_timers 10%Z "Deploy" Hl) as (Hgone & _).
  split; [exact Hl|]. split; [vm_compute; reflexivity|exact Hgone].
Defined.

(** X20. When the callback of a created timer fires at or after the endTime
    it captured, the user gets one desktop notification and one message
    naming the label, the callback's registration is removed, and no timer
    with that label is left in the list; the callback cannot fire again, so
    a timer completes at most once. *)
Theorem expiry_completes_once (st : State) (h : nat) (l : string) (e now now' : Z) :
  intervals st !! h = Some (StartTimerTick l e) -> (e - now <= 0)%Z ->
  log (tick h now st) =
    log st ++ [notifier_notify "Time's up!" (l +:+ " timer has completed.");
               showInformationMessage (l +:+ " timer has completed.")] /\
  intervals (tick h now st) = delete h (intervals st) /\
  (l ∉ label <$> timers (tick h now st)) /\
  tick h now' (tick h now st) = tick h now st.
Proof.
  intros Hh Hexp.
  assert (tick h now st =
          updateStatusBar now
            (set_timers (filter (λ t, label t ≠ l) (timers st))
               (emit (showInformationMessage (l +:+ " timer has completed."))
                  (emit (notifier_notify "Time's up!" (l +:+ " timer has completed."))
                     (clearInterval h st))))) as Htick.
  { unfold tick. rewrite Hh. by destruct (Z.leb_spec (e - now) 0); [|lia]. }
  assert (intervals (tick h now st) = delete h (intervals st)) as Hi.
  { by rewrite Htick, updateStatusBar_intervals. }
  split_and!; [| done | |].
  - rewrite Htick, updateStatusBar_log. simpl. by rewrite <- app_assoc.
  - rewrite Htick, updateStatusBar_timers, sort_timers_Permutation. simpl.
    intros (t & -> & [Hne _]%list_elem_of_filter)%list_elem_of_fmap. done.
  - unfold tick at 1. by rewrite Hi, lookup_delete_eq.
Qed.

Lemma expiry_completes_once_Deploy :
  intervals two_timers !! 1 = Some (StartTimerTick "Deploy" 60000%Z) /\
  (60000 - 60500 <= 0)%Z /\
  log (tick 1 60500%Z two_timers) =
    log two_timers ++ [notifier_notify "Time's up!" "Deploy timer has completed.";
                       showInformationMessage "Deploy timer has completed."] /\
  tick 1 61500%Z (tick 1 60500%Z two_timers) = tick 1 60500%Z two_timers.
Proof.
  assert (intervals two_timers !! 1 = Some (StartTimerTick "Deploy" 60000%Z)) as Hh.
  { vm_compute. reflexivity. }
  assert (60000 - 60500 <= 0)%Z as Hexp by lia.
  destruct (expiry_completes_once two_timers 1 "Deploy" 60000%Z 60500%Z 61500%Z Hh Hexp)
    as (Hlog & _ & _ & Honce).
  split; [exact Hh|]. split; [exact Hexp|]. split; [exact Hlog|exact Honce].
Defined.

(** An activation at time 1000 from a store with one expired and one running
    timer and one completed task. *)
Example activation_of_store_mixed :
  log (constructor store_mixed 0 1000%Z) =
    [showInformationMessage "Old timer has completed."] /\
  timers (constructor store_mixed 0 1000%Z) = [mkTimer "New" 0 5000%Z] /\
  tasks (constructor store_mixed 0 1000%Z) = [mkTask "Write spec" true] /\
  taskStatusBarItem_text (constructor store_mixed 0 1000%Z) = "No tasks" /\
  globalState (constructor store_mixed 0 1000%Z) = store_mixed.
Proof. vm_compute. split_and!; reflexivity. Qed.

(** * The timer item of the status bar *)

Lemma list_ascii_app (p q : string) :
  list_ascii_of_string (p +:+ q) = list_ascii_of_string p ++ list_ascii_of_string q.
Proof.
  induction p as [|c p IH]; [done|]. rewrite string_app_cons. simpl. by rewrite IH.
Qed.

Lemma ends_with_two_app (p : string) (a b : ascii) :
  ends_with_two (p +:+ String a (String b EmptyString)) = Some (a, b).
Proof.
  unfold ends_with_two. rewrite list_ascii_app, rev_app_distr. reflexivity.
Qed.

(** Claim C7, as the code has it. After the status bar is recomputed, the
    timer item shows the fixed text "No active timers" exactly when there is
    no timer. With at least one timer it shows the number of timers, then the
    label of a timer whose endTime is the smallest of all, then a text for
    that timer's remaining time; when the remaining time is not negative,
    that text is the whole minutes left, a colon, and the whole seconds left
    in the current minute as exactly two digits, 00 to 59. *)
Theorem timer_status_bar_text (now : Z) (st : State) :
  (timerStatusBarItem_text (updateStatusBar now st) = "No active timers"
     <-> timers st = []) /\
  match timers st with
  | [] => True
  | _ :: _ =>
      ∃ nextTimer time,
        nextTimer ∈ timers st ∧
        Forall (λ t, (endTime nextTimer <= endTime t)%Z) (timers st) ∧
        timerStatusBarItem_text (updateStatusBar now st) =
          Number_toString (Z.of_nat (length (timers st))) +:+
          " active timer(s) 🕒 " +:+ label nextTimer +:+ ": " +:+ time ∧
        ((0 <= endTime nextTimer - now)%Z ->
         time =
           Number_toString ((endTime nextTimer - now) / 60000)%Z +:+ ":" +:+
           two_digits ((endTime nextTimer - now) mod 60000 / 1000)%Z ∧
         (0 <= (endTime nextTimer - now) mod 60000 / 1000 < 60)%Z)
  end.
Proof.
  rewrite updateStatusBar_timer_text.
  destruct (timers st) as [|t0 ts0] eqn:Hts; [done|].
  destruct (Array_sort by_endTime (t0 :: ts0)) as [|nextTimer rest] eqn:Hs.
  { by apply sort_timers_nil_inv in Hs. }
  split.
  - split; [|done]. intros H. by apply timer_text_not_idle in H.
  - exists nextTimer, (minutes_seconds (endTime nextTimer - now)).
    destruct (sort_head_minimum _ _ _ Hs) as [Hin Hmin].
    split_and!; [done..|].
    intros Hr. split; [by apply minutes_seconds_nonneg|].
    Z.to_euclidean_division_equations. lia.
Qed.

Lemma timer_status_bar_text_Build :
  (0 <= 300000 - 1000)%Z /\
  timerStatusBarItem_text (updateStatusBar 1000%Z one_timer) =
    "1 active timer(s) 🕒 Build: 4:59".
Proof.
  assert (0 <= 300000 - 1000)%Z as Hr by lia.
  split; [exact Hr|].
  pose proof (timer_status_bar_text 1000%Z one_timer) as [_ H].
  assert (timers one_timer = [mkTimer "Build" 0 300000%Z]) as Hts.
  { vm_compute. reflexivity. }
  rewrite Hts in H.
  destruct H as (nextTimer & time & Hin & _ & Htext & Hfmt).
  apply list_elem_of_singleton in Hin. subst nextTimer.
  destruct (Hfmt Hr) as [-> _]. rewrite Htext. vm_compute. reflexivity.
Defined.

(** Claim C7, as it is written, fails in a state of a run. In [past_endTime]
    the restored timer A is 61.5 seconds past its endTime and still in the
    list; the timer item reads "-2:-2" for it, and recomputing the status bar
    at that instant gives the same text. However the text is cut, what
    follows the last colon is not a seconds field of two digits. *)
Lemma timer_status_bar_text_past_endTime :
  reachable past_endTime /\
  timers past_endTime = [mkTimer "A" 1 60000%Z] /\
  timerStatusBarItem_text (updateStatusBar 121500%Z past_endTime) =
    "1 active timer(s) 🕒 A: -2:-2" /\
  ~ (∃ prefix minutes seconds,
       (0 <= seconds < 60)%Z ∧
       timerStatusBarItem_text (updateStatusBar 121500%Z past_endTime) =
         prefix +:+ Number_toString minutes +:+ ":" +:+ two_digits seconds).
Proof.
  assert (timerStatusBarItem_text (updateStatusBar 121500%Z past_endTime) =
          "1 active timer(s) 🕒 A: -2:-2") as Htext.
  { vm_compute. reflexivity. }
  split_and!.
  - cbv beta iota delta [past_endTime run foldl].
    do 4 apply reachable_step. apply reachable_activate.
  - vm_compute. reflexivity.
  - exact Htext.
  - intros (prefix & minutes & seconds & Hs & Heq).
    rewrite Htext in Heq. unfold two_digits in Heq.
    rewrite <- !string_app_assoc in Heq.
    apply (f_equal ends_with_two) in Heq.
    rewrite ends_with_two_app in Heq.
    assert (ends_with_two "1 active timer(s) 🕒 A: -2:-2" = Some ("-"%char, "2"%char))
      as Hend by (vm_compute; reflexivity).
    rewrite Hend in Heq. injection Heq as Hminus _.
    assert (∃ n : nat, n < 6 ∧ (seconds / 10)%Z = Z.of_nat n) as (n & Hn & Hdiv).
    { exists (Z.to_nat (seconds / 10)).
      Z.to_euclidean_division_equations. lia. }
    rewrite Hdiv in Hminus.
    do 6 (destruct n as [|n]; [vm_compute in Hminus; discriminate|]). lia.
Qed.
